(** * The blog API: resolvers and error rendering

    A shallow embedding of [src/app.js]: the Express entry point (the error
    formatter handed to the GraphQL endpoint and the catch-all error
    handler) and the GraphQL resolvers ([createUser], [login], [createPost],
    [posts], [post], [updatePost], [deletePost], [user], [updateStatus]).

    An [async] resolver is a computation over a [World] (the document store,
    the console, the image directory) that either resolves with a value,
    resolves with [undefined], or rejects with the error it threw. *)

From Stdlib Require Import String Ascii List ZArith Bool Lia PeanoNat.
From Stdlib Require Import Sorting.Sorted Sorting.Permutation DecimalString.
Import ListNotations.
Local Open Scope string_scope.
Local Open Scope list_scope.

(** ** JavaScript errors and identifiers *)

(** One entry of the [errors] array a resolver builds:
    [{ message: '...' }]. *)
Record FieldError := mkFieldError { fe_message : string }.

(** An [Error] object with the properties this program attaches or reads:
    [name] (the constructor), [message], [code] (resolvers), [statusCode]
    (read by the Express error handler) and [data]. *)
Record JsError := mkJsError {
  e_name : string;
  e_message : string;
  e_code : option Z;
  e_statusCode : option Z;
  e_data : option (list FieldError)
}.

(** [new Error(msg)]. *)
Definition new_Error (msg : string) : JsError :=
  mkJsError "Error" msg None None None.

(** [error.code = c]. *)
Definition set_code (c : Z) (e : JsError) : JsError :=
  mkJsError (e_name e) (e_message e) (Some c) (e_statusCode e) (e_data e).

(** [error.data = d]. *)
Definition set_data (d : list FieldError) (e : JsError) : JsError :=
  mkJsError (e_name e) (e_message e) (e_code e) (e_statusCode e) (Some d).

(** Reading a property of [null] or [undefined]. *)
Definition TypeError (msg : string) : JsError :=
  mkJsError "TypeError" msg None None None.

(** Reading an identifier no scope declares. *)
Definition ReferenceError (x : string) : JsError :=
  mkJsError "ReferenceError" (String.append x " is not defined")
            None None None.

(** An error reported by the database driver. *)
Definition MongoError (msg : string) : JsError :=
  mkJsError "MongoError" msg None None None.

(** ** The document store *)

(** An [ObjectId], identified with its [toString()] rendering. *)
Definition ObjectId := string.

Definition toString (i : ObjectId) : string := i.

(** The [n]-th identifier the driver hands out. *)
Definition oid_of_nat (n : nat) : ObjectId :=
  String.append "oid-" (NilEmpty.string_of_uint (Nat.to_uint n)).

(** Modelled from the spec: the [User] model of [models/user] is not part of
    the sources; section 3 gives its fields: email, display name, hashed
    password, free-text status, ordered collection of owned post
    references. *)
Record UserDoc := mkUser {
  u_id : ObjectId;
  u_email : string;
  u_name : string;
  u_password : string;
  u_status : string;
  u_posts : list ObjectId
}.

(** Modelled from the spec: the [Post] model of [models/post] is not part of
    the sources; section 3 gives its fields: title, body content, image
    path, owning-user reference, server-assigned creation and update
    timestamps (milliseconds, as a JavaScript [Date]). *)
Record PostDoc := mkPost {
  p_id : ObjectId;
  p_title : string;
  p_content : string;
  p_imageUrl : string;
  p_creator : ObjectId;
  p_createdAt : Z;
  p_updatedAt : Z
}.

(** The persistence calls the resolvers make, in the order they are made. *)
Inductive DbOp :=
| OpUserFindOne (email : string)
| OpUserFindById (id : string)
| OpUserSave (id : ObjectId)
| OpPostFindById (id : string)
| OpPopulate (creators : list ObjectId)
| OpPostSave (id : ObjectId)
| OpPostCount
| OpPostFind (skip : Z) (limit : nat)
| OpPostRemove (id : string).

(** Everything a resolver can read or change. *)
Record World := mkWorld {
  db_users : list UserDoc;     (* the users collection, in insertion order *)
  db_posts : list PostDoc;     (* the posts collection, in insertion order *)
  next_oid : nat;              (* supply of fresh ObjectIds *)
  now : Z;                     (* the server clock *)
  console : list JsError;      (* what console.log has printed, oldest first *)
  unlinked : list string;      (* paths handed to clearImage *)
  db_ops : list DbOp           (* persistence calls made, oldest first *)
}.

Definition with_users (us : list UserDoc) (w : World) : World :=
  mkWorld us (db_posts w) (next_oid w) (now w) (console w) (unlinked w)
          (db_ops w).

Definition with_posts (ps : list PostDoc) (w : World) : World :=
  mkWorld (db_users w) ps (next_oid w) (now w) (console w) (unlinked w)
          (db_ops w).

Definition bump_oid (w : World) : World :=
  mkWorld (db_users w) (db_posts w) (S (next_oid w)) (now w) (console w)
          (unlinked w) (db_ops w).

Definition record_op (op : DbOp) (w : World) : World :=
  mkWorld (db_users w) (db_posts w) (next_oid w) (now w) (console w)
          (unlinked w) (db_ops w ++ [op]).

Definition print_error (e : JsError) (w : World) : World :=
  mkWorld (db_users w) (db_posts w) (next_oid w) (now w) (console w ++ [e])
          (unlinked w) (db_ops w).

Definition unlink_file (path : string) (w : World) : World :=
  mkWorld (db_users w) (db_posts w) (next_oid w) (now w) (console w)
          (unlinked w ++ [path]) (db_ops w).

(** ** Computations that may throw *)

Inductive Exc (A : Type) : Type :=
| Ok (a : A)
| Throw (e : JsError).
Arguments Ok {A} a.
Arguments Throw {A} e.

Definition M (A : Type) : Type := World -> Exc A * World.

Definition ret {A} (a : A) : M A := fun w => (Ok a, w).

Definition throw {A} (e : JsError) : M A := fun w => (Throw e, w).

Definition bind {A B} (m : M A) (k : A -> M B) : M B :=
  fun w =>
    match m w with
    | (Ok a, w1) => k a w1
    | (Throw e, w1) => (Throw e, w1)
    end.

Notation "x <- m ;; k" := (bind m (fun x => k))
  (at level 61, m at next level, right associativity).
Notation "m ;;; k" := (bind m (fun _ => k))
  (at level 61, right associativity).

(** [try { body } catch (err) { console.log(err); }] as the last statement
    of an [async] function: a value the body returns is the function's
    result; an error thrown in the body is printed and the function falls
    off its end, resolving with [undefined] ([None]). Whatever the body
    changed before it threw stays changed. *)
Definition try_log {A} (body : M A) : M (option A) :=
  fun w =>
    match body w with
    | (Ok a, w1) => (Ok (Some a), w1)
    | (Throw e, w1) => (Ok None, print_error e w1)
    end.

(** ** The [validator] package *)

Module validator.

(** [validator.isEmpty(str)]: [str.length === 0]. *)
Definition isEmpty (s : string) : bool :=
  match s with
  | EmptyString => true
  | String _ _ => false
  end.

(** [validator.isLength(str, { min })]: the number of characters is at
    least [min] (no [max] is given anywhere in this program). *)
Definition isLength (s : string) (min : nat) : bool :=
  Nat.leb min (String.length s).

End validator.

(** ** The model layer *)

Module User.

(** The lookup behind [findOne({ email })]: the first user with that
    email. *)
Definition by_email (email : string) (us : list UserDoc) : option UserDoc :=
  find (fun u => String.eqb (u_email u) email) us.

(** [User.findOne({ email })]: the first user with that email, or [null]. *)
Definition findOne (email : string) : M (option UserDoc) :=
  fun w =>
    (Ok (by_email email (db_users w)), record_op (OpUserFindOne email) w).

(** The lookup behind [findById], without the bookkeeping. *)
Definition lookup (id : string) (us : list UserDoc) : option UserDoc :=
  find (fun u => String.eqb (toString (u_id u)) id) us.

(** [User.findById(id)]. *)
Definition findById (id : string) : M (option UserDoc) :=
  fun w => (Ok (lookup id (db_users w)), record_op (OpUserFindById id) w).

(** Replace the stored document that has [u]'s id, or append [u]. *)
Fixpoint upsert (u : UserDoc) (us : list UserDoc) : list UserDoc :=
  match us with
  | [] => [u]
  | v :: rest =>
      if String.eqb (u_id v) (u_id u) then u :: rest
      else v :: upsert u rest
  end.

(** [user.save()]. *)
Definition save (u : UserDoc) : M UserDoc :=
  fun w =>
    (Ok u,
     record_op (OpUserSave (u_id u)) (with_users (upsert u (db_users w)) w)).

(** [new User({ email, name, password })]: a fresh id, the schema's default
    status, no posts. *)
Definition create (default_status email name password : string)
  : M UserDoc :=
  fun w =>
    (Ok (mkUser (oid_of_nat (next_oid w)) email name password
                default_status []),
     bump_oid w).

(** [user.posts.pull(id)]. *)
Definition pull (id : string) (u : UserDoc) : UserDoc :=
  mkUser (u_id u) (u_email u) (u_name u) (u_password u) (u_status u)
         (filter (fun p => negb (String.eqb (toString p) id)) (u_posts u)).

(** [user.posts.push(post)]. *)
Definition push (p : ObjectId) (u : UserDoc) : UserDoc :=
  mkUser (u_id u) (u_email u) (u_name u) (u_password u) (u_status u)
         (u_posts u ++ [p]).

(** [user.status = status]. *)
Definition set_status (s : string) (u : UserDoc) : UserDoc :=
  mkUser (u_id u) (u_email u) (u_name u) (u_password u) s (u_posts u).

End User.

Module Post.

(** The lookup behind [findById], without the bookkeeping. *)
Definition lookup (id : string) (ps : list PostDoc) : option PostDoc :=
  find (fun p => String.eqb (toString (p_id p)) id) ps.

(** [Post.findById(id)]. *)
Definition findById (id : string) : M (option PostDoc) :=
  fun w => (Ok (lookup id (db_posts w)), record_op (OpPostFindById id) w).

(** [.populate('creator')] on one document: the referenced user document,
    [null] when the reference dangles. *)
Definition populate (p : PostDoc) : M (option UserDoc) :=
  fun w =>
    (Ok (User.lookup (toString (p_creator p)) (db_users w)),
     record_op (OpPopulate [p_creator p]) w).

(** [.populate('creator')] on a list of documents: one query for all the
    referenced users. *)
Definition populate_all (ps : list PostDoc)
  : M (list (PostDoc * option UserDoc)) :=
  fun w =>
    (Ok (map (fun p => (p, User.lookup (toString (p_creator p)) (db_users w)))
             ps),
     record_op (OpPopulate (map p_creator ps)) w).

(** [Post.find().countDocuments()]. *)
Definition countDocuments : M nat :=
  fun w => (Ok (length (db_posts w)), record_op OpPostCount w).

(** Insertion into a list kept in descending [createdAt] order. *)
Fixpoint insert_desc (p : PostDoc) (l : list PostDoc) : list PostDoc :=
  match l with
  | [] => [p]
  | q :: rest =>
      if (p_createdAt q <=? p_createdAt p)%Z then p :: q :: rest
      else q :: insert_desc p rest
  end.

(** [.sort({ createdAt: -1 })]. *)
Definition sort_desc (l : list PostDoc) : list PostDoc :=
  fold_right insert_desc [] l.

(** [Post.find().sort({ createdAt: -1 }).skip(skip).limit(limit)]; the
    server refuses a negative [skip]. *)
Definition find_page (skip : Z) (limit : nat) : M (list PostDoc) :=
  fun w =>
    let w1 := record_op (OpPostFind skip limit) w in
    if (skip <? 0)%Z
    then (Throw (MongoError "Skip value must be non-negative"), w1)
    else (Ok (firstn limit (skipn (Z.to_nat skip) (sort_desc (db_posts w)))),
          w1).

(** Replace every stored document that has [p]'s id by [p]. *)
Definition replace (p : PostDoc) (ps : list PostDoc) : list PostDoc :=
  map (fun q => if String.eqb (p_id q) (p_id p) then p else q) ps.

(** [new Post({ title, content, imageUrl, creator })] followed by
    [post.save()]: a fresh id, both timestamps set to the clock, appended
    to the collection. *)
Definition create_save (title content imageUrl : string)
           (creator : ObjectId) : M PostDoc :=
  fun w =>
    let p := mkPost (oid_of_nat (next_oid w)) title content imageUrl
                    creator (now w) (now w) in
    (Ok p,
     record_op (OpPostSave (p_id p))
       (with_posts (db_posts w ++ [p]) (bump_oid w))).

(** [post.save()] on a document read from the store: the stored document
    is replaced and [updatedAt] is set to the clock. *)
Definition save (p : PostDoc) : M PostDoc :=
  fun w =>
    let p' := mkPost (p_id p) (p_title p) (p_content p) (p_imageUrl p)
                     (p_creator p) (p_createdAt p) (now w) in
    (Ok p',
     record_op (OpPostSave (p_id p)) (with_posts (replace p' (db_posts w)) w)).

(** [Post.findByIdAndRemove(id)]. *)
Definition findByIdAndRemove (id : string) : M unit :=
  fun w =>
    (Ok tt,
     record_op (OpPostRemove id)
       (with_posts
          (filter (fun p => negb (String.eqb (toString (p_id p)) id))
                  (db_posts w)) w)).

End Post.

(** Modelled from the spec: [clearImage] of [util/file] is not part of the
    sources; by sections 3 and 4.3 it deletes the stored image file at the
    given path. *)
Definition clearImage (path : string) : M unit :=
  fun w => (Ok tt, unlink_file path w).

(** ** Libraries and platform functions the resolvers call

    What the program takes from [validator], [bcryptjs], [jsonwebtoken], the
    process environment, [Date] and the [User] schema. The resolvers are
    defined, and their properties proved, for every choice of these. *)
Record Libs := mkLibs {
  (* validator.isEmail(str) *)
  isEmail : string -> bool;
  (* bcrypt.hash(password, rounds) *)
  bcrypt_hash : string -> nat -> string;
  (* bcrypt.compare(password, hash) *)
  bcrypt_compare : string -> string -> bool;
  (* jwt.sign({ userId, email }, secret, { expiresIn }) *)
  jwt_sign : string -> string -> string -> string -> string;
  (* process.env.JWT_SECRET *)
  JWT_SECRET : string;
  (* Date.prototype.toISOString *)
  toISOString : Z -> string;
  (* the schema default of User.status *)
  default_status : string
}.

(** ** Requests, inputs and response shapes *)

(** Modelled from the spec: the auth middleware of [middleware/auth] is not
    part of the sources; by section 4.1 it marks the request as
    authenticated or not and attaches the user id decoded from the token.
    [isAuth = false] also stands for an absent flag: [!req.isAuth] does not
    tell the two apart. *)
Record Request := mkRequest {
  isAuth : bool;
  userId : string
}.

Record UserInputData := mkUserInput {
  ui_email : string;
  ui_name : string;
  ui_password : string
}.

Record PostInputData := mkPostInput {
  pi_title : string;
  pi_content : string;
  pi_imageUrl : string
}.

(** [{ ...user._doc, _id: user._id.toString() }]: every field of the stored
    document, the id as a string. *)
Record UserData := mkUserData {
  ud_id : string;
  ud_email : string;
  ud_name : string;
  ud_password : string;
  ud_status : string;
  ud_posts : list ObjectId
}.

(** The [creator] field of a post document: the bare reference, or what
    [populate] put in its place. *)
Inductive Creator :=
| Reference (id : ObjectId)
| Populated (u : option UserDoc).

(** [{ ...post._doc, _id: ..., createdAt: ..., updatedAt: ... }]. *)
Record PostData := mkPostData {
  pd_id : string;
  pd_title : string;
  pd_content : string;
  pd_imageUrl : string;
  pd_creator : Creator;
  pd_createdAt : string;
  pd_updatedAt : string
}.

(** [{ posts, totalPosts }]. *)
Record PostsData := mkPostsData {
  psd_posts : list PostData;
  psd_totalPosts : nat
}.

(** [{ token, userId }]. *)
Record AuthData := mkAuthData {
  ad_token : string;
  ad_userId : string
}.

(** [!page] for a nullable GraphQL [Int]. *)
Definition page_is_falsy (page : option Z) : bool :=
  match page with
  | None => true
  | Some p => (p =? 0)%Z
  end.

(** ** The resolvers *)

Module resolvers.
Section WithLibs.

Variable L : Libs.

Definition user_data (u : UserDoc) : UserData :=
  mkUserData (toString (u_id u)) (u_email u) (u_name u) (u_password u)
             (u_status u) (u_posts u).

Definition post_data (c : Creator) (p : PostDoc) : PostData :=
  mkPostData (toString (p_id p)) (p_title p) (p_content p) (p_imageUrl p) c
             (toISOString L (p_createdAt p)) (toISOString L (p_updatedAt p)).

(** The [errors] array of [createPost] and [updatePost]. *)
Definition post_input_errors (postInput : PostInputData)
  : list FieldError :=
  let errors := [] in
  let errors :=
    if validator.isEmpty (pi_title postInput)
       || negb (validator.isLength (pi_title postInput) 5)
    then errors ++ [mkFieldError "Title is invalid."] else errors in
  let errors :=
    if validator.isEmpty (pi_content postInput)
       || negb (validator.isLength (pi_content postInput) 5)
    then errors ++ [mkFieldError "Content is invalid."] else errors in
  errors.

(** The [errors] array of [createUser]. *)
Definition user_input_errors (userInput : UserInputData)
  : list FieldError :=
  let errors := [] in
  let errors :=
    if negb (isEmail L (ui_email userInput))
    then errors ++ [mkFieldError "Invalid email."] else errors in
  let errors :=
    if validator.isEmpty (ui_password userInput)
       || negb (validator.isLength (ui_password userInput) 5)
    then errors ++ [mkFieldError "Password too short."] else errors in
  errors.

(** The body of the [try] block of [createUser]. *)
Definition createUser_try (userInput : UserInputData) : M UserData :=
  existingUser <- User.findOne (ui_email userInput) ;;
  match existingUser with
  | Some _ => throw (new_Error "User exists already.")
  | None =>
      let hashedPassword := bcrypt_hash L (ui_password userInput) 12 in
      user <- User.create (default_status L) (ui_email userInput)
                          (ui_name userInput) hashedPassword ;;
      createdUser <- User.save user ;;
      ret (user_data createdUser)
  end.

Definition createUser (userInput : UserInputData) (req : Request)
  : M (option UserData) :=
  let errors := user_input_errors userInput in
  if Nat.ltb 0 (length errors)
  then throw (set_code 422 (set_data errors (new_Error "Invalid input.")))
  else try_log (createUser_try userInput).

(** The body of the [try] block of [login]. *)
Definition login_try (email password : string) : M AuthData :=
  user <- User.findOne email ;;
  match user with
  | None => throw (set_code 401 (new_Error "User not found."))
  | Some user =>
      let isEqual := bcrypt_compare L password (u_password user) in
      if negb isEqual
      then throw (set_code 401 (new_Error "Incorrect password."))
      else
        let token := jwt_sign L (toString (u_id user)) (u_email user)
                              (JWT_SECRET L) "1h" in
        ret (mkAuthData token (toString (u_id user)))
  end.

Definition login (email password : string) : M (option AuthData) :=
  try_log (login_try email password).

(** The body of the [try] block of [createPost]. The new post's [creator]
    is the [user] object itself, so the response shows it as it is after
    the [push]. *)
Definition createPost_try (postInput : PostInputData) (req : Request)
  : M PostData :=
  user <- User.findById (userId req) ;;
  match user with
  | None => throw (set_code 401 (new_Error "Invalid user."))
  | Some user =>
      createdPost <- Post.create_save (pi_title postInput)
                       (pi_content postInput) (pi_imageUrl postInput)
                       (u_id user) ;;
      let user := User.push (p_id createdPost) user in
      _ <- User.save user ;;
      ret (post_data (Populated (Some user)) createdPost)
  end.

Definition createPost (postInput : PostInputData) (req : Request)
  : M (option PostData) :=
  if negb (isAuth req)
  then throw (set_code 401 (new_Error "Not authenticated!"))
  else
    let errors := post_input_errors postInput in
    if Nat.ltb 0 (length errors)
    then throw (set_code 422 (set_data errors (new_Error "Invalid input.")))
    else try_log (createPost_try postInput req).

(** The body of the [try] block of [posts]. *)
Definition posts_try (page : Z) (perPage : nat) : M PostsData :=
  totalPosts <- Post.countDocuments ;;
  found <- Post.find_page ((page - 1) * Z.of_nat perPage)%Z perPage ;;
  populated <- Post.populate_all found ;;
  ret (mkPostsData
         (map (fun pc => post_data (Populated (snd pc)) (fst pc)) populated)
         totalPosts).

Definition posts (page : option Z) (req : Request) : M (option PostsData) :=
  if negb (isAuth req)
  then throw (set_code 401 (new_Error "Not authenticated!"))
  else
    let page := if page_is_falsy page then 1%Z
                else match page with Some p => p | None => 1%Z end in
    let perPage := 2 in
    try_log (posts_try page perPage).

(** The body of the [try] block of [post]. *)
Definition post_try (id : string) : M PostData :=
  found <- Post.findById id ;;
  match found with
  | None => throw (set_code 404 (new_Error "Post not found."))
  | Some post =>
      creator <- Post.populate post ;;
      ret (post_data (Populated creator) post)
  end.

Definition post (id : string) (req : Request) : M (option PostData) :=
  if negb (isAuth req)
  then throw (set_code 401 (new_Error "Not authenticated!"))
  else try_log (post_try id).

(** [post.title = ...; post.content = ...;] and, unless the input's
    [imageUrl] is the string ['undefined'], [post.imageUrl = ...]. *)
Definition apply_post_input (postInput : PostInputData) (post : PostDoc)
  : PostDoc :=
  let imageUrl :=
    if negb (String.eqb (pi_imageUrl postInput) "undefined")
    then pi_imageUrl postInput else p_imageUrl post in
  mkPost (p_id post) (pi_title postInput) (pi_content postInput) imageUrl
         (p_creator post) (p_createdAt post) (p_updatedAt post).

(** The body of the [try] block of [updatePost]: existence, ownership,
    validation, then the write. *)
Definition updatePost_try (id : string) (postInput : PostInputData)
           (req : Request) : M PostData :=
  found <- Post.findById id ;;
  match found with
  | None => throw (set_code 401 (new_Error "Post not found."))
  | Some post =>
      creator <- Post.populate post ;;
      match creator with
      | None => throw (TypeError "Cannot read property '_id' of null")
      | Some c =>
          if negb (String.eqb (toString (u_id c)) (userId req))
          then throw (set_code 403 (new_Error "Unauthorized."))
          else
            let errors := post_input_errors postInput in
            if Nat.ltb 0 (length errors)
            then throw (set_code 422
                          (set_data errors (new_Error "Invalid input.")))
            else
              updatedPost <- Post.save (apply_post_input postInput post) ;;
              ret (post_data (Populated (Some c)) updatedPost)
      end
  end.

Definition updatePost (id : string) (postInput : PostInputData)
           (req : Request) : M (option PostData) :=
  if negb (isAuth req)
  then throw (set_code 401 (new_Error "Not authenticated!"))
  else try_log (updatePost_try id postInput req).

(** The body of the [try] block of [deletePost]. *)
Definition deletePost_try (id : string) (req : Request) : M bool :=
  found <- Post.findById id ;;
  match found with
  | None => throw (set_code 401 (new_Error "Post not found."))
  | Some post =>
      if negb (String.eqb (toString (p_creator post)) (userId req))
      then throw (set_code 403 (new_Error "Unauthorized."))
      else
        clearImage (p_imageUrl post) ;;;
        Post.findByIdAndRemove id ;;;
        user <- User.findById (userId req) ;;
        match user with
        | None => throw (TypeError "Cannot read property 'posts' of null")
        | Some user =>
            _ <- User.save (User.pull id user) ;;
            ret true
        end
  end.

Definition deletePost (id : string) (req : Request) : M (option bool) :=
  if negb (isAuth req)
  then throw (set_code 401 (new_Error "Not authenticated!"))
  else try_log (deletePost_try id req).

(** The body of the [try] block of [user]. *)
Definition user_try (req : Request) : M UserData :=
  found <- User.findById (userId req) ;;
  match found with
  | None => throw (set_code 401 (new_Error "User not found."))
  | Some user => ret (user_data user)
  end.

Definition user (req : Request) : M (option UserData) :=
  if negb (isAuth req)
  then throw (set_code 401 (new_Error "Not authenticated!"))
  else try_log (user_try req).

(** The body of the [try] block of [updateStatus]. *)
Definition updateStatus_try (status : string) (req : Request) : M UserData :=
  found <- User.findById (userId req) ;;
  match found with
  | None => throw (set_code 401 (new_Error "User not found."))
  | Some user =>
      let user := User.set_status status user in
      _ <- User.save user ;;
      ret (user_data user)
  end.

Definition updateStatus (status : string) (req : Request)
  : M (option UserData) :=
  if negb (isAuth req)
  then throw (set_code 401 (new_Error "Not authenticated!"))
  else try_log (updateStatus_try status req).

End WithLibs.
End resolvers.

(** ** The entry point: rendering errors *)

Module app.

(** [x || d] on a possibly absent number: [undefined] and [0] are falsy. *)
Definition or_number (x : option Z) (d : Z) : Z :=
  match x with
  | None => d
  | Some c => if (c =? 0)%Z then d else c
  end.

(** [x || d] on a string: the empty string is falsy. *)
Definition or_string (x : string) (d : string) : string :=
  match x with
  | EmptyString => d
  | String _ _ => x
  end.

(** The error object [express-graphql] hands to [formatError]: its
    [message] and, when a resolver threw, the thrown error as
    [originalError]. *)
Record GraphQLError := mkGraphQLError {
  g_message : string;
  g_originalError : option JsError
}.

(** Values an identifier of [formatError] can be bound to. *)
Inductive JsVal :=
| VUndefined
| VString (s : string)
| VNumber (z : Z)
| VErrors (l : list FieldError)
| VError (g : GraphQLError)
| VBinding (name : string).      (* a module-level constant or a global *)

(** The names bound at the top of [app.js], by its [const] declarations
    and by Node's module wrapper. *)
Definition module_scope : list string :=
  ["path"; "express"; "bodyParser"; "mongoose"; "multer"; "graphqlHttp";
   "uuidv4"; "graphqlSchema"; "graphqlResolver"; "auth"; "clearImage";
   "app"; "fileStorage"; "fileFilter";
   "require"; "module"; "exports"; "__dirname"; "__filename"].

(** Names Node's global object provides. *)
Definition global_scope : list string :=
  ["global"; "globalThis"; "process"; "console"; "Buffer"; "URL";
   "URLSearchParams"; "setTimeout"; "clearTimeout"; "setInterval";
   "clearInterval"; "setImmediate"; "clearImmediate"; "queueMicrotask";
   "Object"; "Function"; "Array"; "Number"; "Boolean"; "String"; "Symbol";
   "Date"; "Promise"; "RegExp"; "Error"; "TypeError"; "ReferenceError";
   "JSON"; "Math"; "Map"; "Set"; "undefined"; "NaN"; "Infinity"].

Fixpoint assoc (x : string) (env : list (string * JsVal)) : option JsVal :=
  match env with
  | [] => None
  | (y, v) :: rest => if String.eqb x y then Some v else assoc x rest
  end.

(** Reading the identifier [x] inside a function with the given locals:
    the innermost scope that binds it wins; none binding it is a
    [ReferenceError]. *)
Definition read_identifier (locals : list (string * JsVal)) (x : string)
  : Exc JsVal :=
  match assoc x locals with
  | Some v => Ok v
  | None =>
      if existsb (String.eqb x) (module_scope ++ global_scope)
      then Ok (VBinding x)
      else Throw (ReferenceError x)
  end.

Definition data_value (d : option (list FieldError)) : JsVal :=
  match d with
  | None => VUndefined
  | Some l => VErrors l
  end.

(** What [formatError] returns: the error untouched, or an object literal
    with the listed properties. *)
Inductive Formatted :=
| Untouched (err : GraphQLError)
| ObjectLiteral (properties : list (string * JsVal)).

(** [formatError(err)]. The object literal [{ message, status, data }]
    reads the identifiers [message], [status] and [data], left to right. *)
Definition formatError (err : GraphQLError) : Exc Formatted :=
  match g_originalError err with
  | None => Ok (Untouched err)
  | Some originalError =>
      let locals := [("err", VError err)] in
      let locals := ("data", data_value (e_data originalError)) :: locals in
      let locals :=
        ("message", VString (or_string (g_message err) "An error occurred."))
          :: locals in
      let locals :=
        ("code", VNumber (or_number (e_code originalError) 500)) :: locals in
      match read_identifier locals "message" with
      | Throw e => Throw e
      | Ok message =>
          match read_identifier locals "status" with
          | Throw e => Throw e
          | Ok status =>
              match read_identifier locals "data" with
              | Throw e => Throw e
              | Ok data =>
                  Ok (ObjectLiteral [("message", message);
                                     ("status", status);
                                     ("data", data)])
              end
          end
      end
  end.

(** What the catch-all handler sends:
    [res.status(status).json({ message, data })]. *)
Record Response := mkResponse {
  r_status : Z;
  r_message : string;
  r_data : option (list FieldError)
}.

(** The Express error handler
    [(error, req, res, next) => { ... }]. *)
Definition error_handler (error : JsError) : Response :=
  let status := or_number (e_statusCode error) 500 in
  let message := e_message error in
  let data := e_data error in
  mkResponse status message data.

(** The [PUT /post-image] handler's gate: [throw new Error(...)] when the
    request is not authenticated. *)
Definition post_image_gate (req : Request) : Exc unit :=
  if negb (isAuth req) then Throw (new_Error "Not authenticated!")
  else Ok tt.

End app.

(** ** Sample data

    Stand-ins for the libraries and a small store, used to run the
    resolvers on concrete inputs. *)

Module Sample.

Definition is_at (c : ascii) : bool := Ascii.eqb c "@"%char.

(** Stand-in for [validator.isEmail]: the address contains an [@]. *)
Definition contains_at (s : string) : bool :=
  existsb is_at (list_ascii_of_string s).

(** Stand-in for [bcrypt.hash]. *)
Definition hash (password : string) (rounds : nat) : string :=
  String.append "$2a$12$" password.

(** Stand-in for [bcrypt.compare]. *)
Definition compare (password hashed : string) : bool :=
  String.eqb (hash password 12) hashed.

(** Stand-in for [jwt.sign]. *)
Definition sign (userId email secret expiresIn : string) : string :=
  String.append userId (String.append "." (String.append email
    (String.append "." expiresIn))).

(** Stand-in for [toISOString]: the decimal rendering of the timestamp. *)
Definition iso (t : Z) : string :=
  NilEmpty.string_of_int (Z.to_int t).

Definition libs : Libs :=
  mkLibs contains_at hash compare sign "secret" iso "I am new!".

Definition ann : UserDoc :=
  mkUser "u1" "ann@example.com" "Ann" (hash "tulip-42" 12) "I am new!"
         ["p1"; "p3"].

Definition bob : UserDoc :=
  mkUser "u2" "bob@example.com" "Bob" (hash "orchid-7" 12) "I am new!"
         ["p2"].

Definition p1 : PostDoc :=
  mkPost "p1" "First post" "Hello World" "images/a.png" "u1" 1000 1000.

Definition p2 : PostDoc :=
  mkPost "p2" "Second post" "Hello again" "images/b.png" "u2" 3000 3000.

Definition p3 : PostDoc :=
  mkPost "p3" "Third post" "Hello there" "images/c.png" "u1" 2000 2000.

Definition world : World :=
  mkWorld [ann; bob] [p1; p2; p3] 10 5000 [] [] [].

(** A request the auth middleware marked as Ann's. *)
Definition as_ann : Request := mkRequest true "u1".

(** A request the auth middleware marked as Bob's. *)
Definition as_bob : Request := mkRequest true "u2".

(** A request without a valid token. *)
Definition anonymous : Request := mkRequest false EmptyString.

End Sample.

(** ** The image upload route *)

Module upload.











End upload.

(** ** Views of the store used in the statements below *)

(** The emails of the stored users, in order. *)
Definition emails (w : World) : list string := map u_email (db_users w).

(** What identifies a user and lets them sign in. *)
Definition credentials (u : UserDoc) : string * string * string * string :=
  (u_id u, u_email u, u_name u, u_password u).

(** The response shape of a stored post with its creator populated from
    the users of [w]. *)
Definition populated_post_data (L : Libs) (w : World) (p : PostDoc)
  : PostData :=
  resolvers.post_data L
    (Populated (User.lookup (toString (p_creator p)) (db_users w))) p.

(** * Properties *)

(** A request as the auth middleware leaves it for a token that [login]
    issued: the flag is set and the id is that of a stored user. *)
Definition signed_in (w : World) (req : Request) : Prop :=
  isAuth req = true /\ exists u, User.lookup (userId req) (db_users w) = Some u.

(** The error every gated resolver throws first. *)
Definition not_authenticated : JsError :=
  set_code 401 (new_Error "Not authenticated!").

(** The validation error built from a non-empty [errors] array. *)
Definition invalid_input (errors : list FieldError) : JsError :=
  set_code 422 (set_data errors (new_Error "Invalid input.")).

(** Descending order of creation time. *)
Definition newest_first (l : list PostDoc) : Prop :=
  StronglySorted (fun a b => (p_createdAt b <= p_createdAt a)%Z) l.

(** The two errors that are thrown outside a [try] block: the one of the
    authorization gate and the one of input validation. *)
Definition gate_or_validation (e : JsError) : Prop :=
  e = not_authenticated
  \/ exists errors, errors <> [] /\ e = invalid_input errors.

(** ** Lookups *)

Lemma user_lookup_id (id : string) (us : list UserDoc) (u : UserDoc) :
  User.lookup id us = Some u -> toString (u_id u) = id.
Proof.
  unfold User.lookup. intros H.
  apply find_some in H. destruct H as [_ H].
  now apply String.eqb_eq in H.
Qed.

Lemma user_lookup_In (id : string) (us : list UserDoc) (u : UserDoc) :
  User.lookup id us = Some u -> In u us.
Proof.
  unfold User.lookup. intros H. now apply find_some in H.
Qed.

Lemma post_lookup_id (id : string) (ps : list PostDoc) (p : PostDoc) :
  Post.lookup id ps = Some p -> toString (p_id p) = id.
Proof.
  unfold Post.lookup. intros H.
  apply find_some in H. destruct H as [_ H].
  now apply String.eqb_eq in H.
Qed.

Lemma post_lookup_replace (id : string) (ps : list PostDoc) (p q : PostDoc) :
  Post.lookup id ps = Some p -> p_id q = p_id p ->
  Post.lookup id (Post.replace q ps) = Some q.
Proof.
  intros Hfind Hid.
  pose proof (post_lookup_id _ _ _ Hfind) as Hp. unfold toString in Hp.
  revert Hfind. unfold Post.lookup, Post.replace, toString.
  induction ps as [|r rest IH]; simpl; [discriminate|].
  destruct (String.eqb (p_id r) id) eqn:Er.
  - intros _. apply String.eqb_eq in Er.
    assert (Hrq : String.eqb (p_id r) (p_id q) = true)
      by (apply String.eqb_eq; congruence).
    rewrite Hrq.
    assert (Hq : String.eqb (p_id q) id = true)
      by (apply String.eqb_eq; congruence).
    now rewrite Hq.
  - intros Hfind.
    assert (Hrq : String.eqb (p_id r) (p_id q) = false).
    { apply String.eqb_neq. apply String.eqb_neq in Er. congruence. }
    rewrite Hrq, Er. now apply IH.
Qed.

Lemma upsert_In (u : UserDoc) (us : list UserDoc) : In u (User.upsert u us).
Proof.
  induction us as [|v rest IH]; simpl; [now left|].
  destruct (String.eqb (u_id v) (u_id u)); simpl; auto.
Qed.

(** ** Validation *)

Lemma isLength_spec (s : string) (n : nat) :
  validator.isLength s n = true <-> n <= String.length s.
Proof. unfold validator.isLength. apply Nat.leb_le. Qed.

Lemma isEmpty_spec (s : string) :
  validator.isEmpty s = true <-> s = EmptyString.
Proof. destruct s; simpl; split; intros H; congruence. Qed.

(** A field passes its check exactly when it has at least five
    characters. *)
Lemma field_check (s : string) :
  validator.isEmpty s || negb (validator.isLength s 5) = false
  <-> 5 <= String.length s.
Proof.
  rewrite orb_false_iff, negb_false_iff, isLength_spec.
  split; [tauto|]. intros H. split; [|exact H].
  destruct s; simpl in *; [lia | reflexivity].
Qed.

Lemma post_input_errors_nil (i : PostInputData) :
  resolvers.post_input_errors i = [] <->
  5 <= String.length (pi_title i) /\ 5 <= String.length (pi_content i).
Proof.
  rewrite <- !field_check. unfold resolvers.post_input_errors.
  destruct (validator.isEmpty (pi_title i)
            || negb (validator.isLength (pi_title i) 5));
    destruct (validator.isEmpty (pi_content i)
              || negb (validator.isLength (pi_content i) 5));
    simpl; split; intros H; try discriminate; auto; destruct H; discriminate.
Qed.

Lemma nonempty_length {A} (l : list A) : l <> [] -> Nat.ltb 0 (length l) = true.
Proof. destruct l; [congruence | reflexivity]. Qed.

(** ** Sorting and paging *)

Lemma insert_desc_In (p q : PostDoc) (l : list PostDoc) :
  In q (Post.insert_desc p l) -> q = p \/ In q l.
Proof.
  induction l as [|r rest IH]; simpl.
  - intros [H|[]]; auto.
  - destruct (p_createdAt r <=? p_createdAt p)%Z; simpl.
    + intros [H|[H|H]]; auto.
    + intros [H|H]; auto. destruct (IH H); auto.
Qed.

Lemma insert_desc_sorted (p : PostDoc) (l : list PostDoc) :
  newest_first l -> newest_first (Post.insert_desc p l).
Proof.
  unfold newest_first.
  induction l as [|r rest IH]; simpl; intros Hs.
  - constructor; constructor.
  - inversion Hs as [|? ? Hrest Hall]; subst.
    destruct (p_createdAt r <=? p_createdAt p)%Z eqn:E.
    + apply Z.leb_le in E. constructor; [exact Hs|].
      constructor; [exact E|].
      rewrite Forall_forall in *. intros x Hx. specialize (Hall x Hx). lia.
    + apply Z.leb_gt in E. constructor; [now apply IH|].
      rewrite Forall_forall in *. intros x Hx.
      destruct (insert_desc_In _ _ _ Hx) as [->|Hin]; [lia | now apply Hall].
Qed.

Lemma sort_desc_sorted (l : list PostDoc) : newest_first (Post.sort_desc l).
Proof.
  induction l as [|p rest IH]; simpl.
  - constructor.
  - now apply insert_desc_sorted.
Qed.

Lemma sort_desc_incl (l : list PostDoc) : incl (Post.sort_desc l) l.
Proof.
  induction l as [|p rest IH]; simpl; intros q Hq; [exact Hq|].
  destruct (insert_desc_In _ _ _ Hq) as [->|Hin]; [now left | right; auto].
Qed.

Lemma newest_first_skipn (n : nat) (l : list PostDoc) :
  newest_first l -> newest_first (skipn n l).
Proof.
  unfold newest_first. revert l.
  induction n as [|n IH]; intros l Hs; simpl; [exact Hs|].
  destruct l as [|p rest]; [constructor|].
  inversion Hs; subst. now apply IH.
Qed.

Lemma firstn_In {A} (n : nat) (l : list A) (x : A) :
  In x (firstn n l) -> In x l.
Proof.
  revert l. induction n as [|n IH]; intros [|a l]; simpl; try tauto.
  intros [H|H]; auto.
Qed.

Lemma newest_first_firstn (n : nat) (l : list PostDoc) :
  newest_first l -> newest_first (firstn n l).
Proof.
  unfold newest_first. revert l.
  induction n as [|n IH]; intros l Hs; simpl; [constructor|].
  destruct l as [|p rest]; [constructor|].
  inversion Hs as [|? ? Hrest Hall]; subst.
  constructor; [now apply IH|].
  rewrite Forall_forall in *. intros x Hx. apply Hall.
  now apply (firstn_In n).
Qed.

Lemma page_incl (n k : nat) (l : list PostDoc) :
  incl (firstn n (skipn k l)) l.
Proof.
  intros x Hx. apply firstn_In in Hx.
  rewrite <- (firstn_skipn k l). apply in_or_app. now right.
Qed.

(** ** The authorization gate *)

(** C6. On a request whose authenticated flag is absent, each of
    [createPost], [posts], [post], [updatePost], [deletePost], [user] and
    [updateStatus] rejects with the "Not authenticated!" error carrying
    code 401, whatever its arguments and whatever the store holds, and
    leaves the whole world as it was: nothing stored changes, no
    persistence call is recorded, nothing is printed. *)
Theorem gate_rejects_unauthenticated (L : Libs) (req : Request) (w : World) :
  isAuth req = false ->
  e_code not_authenticated = Some 401%Z /\
  e_message not_authenticated = "Not authenticated!" /\
  (forall postInput,
      resolvers.createPost L postInput req w = (Throw not_authenticated, w)) /\
  (forall page,
      resolvers.posts L page req w = (Throw not_authenticated, w)) /\
  (forall id, resolvers.post L id req w = (Throw not_authenticated, w)) /\
  (forall id postInput,
      resolvers.updatePost L id postInput req w
      = (Throw not_authenticated, w)) /\
  (forall id, resolvers.deletePost id req w = (Throw not_authenticated, w)) /\
  resolvers.user req w = (Throw not_authenticated, w) /\
  (forall status,
      resolvers.updateStatus status req w = (Throw not_authenticated, w)).
Proof.
  intros Hflag.
  unfold resolvers.createPost, resolvers.posts, resolvers.post,
    resolvers.updatePost, resolvers.deletePost, resolvers.user,
    resolvers.updateStatus.
  rewrite Hflag. simpl. repeat split.
Qed.

Lemma gate_rejects_unauthenticated_witness :
  resolvers.createPost Sample.libs
    (mkPostInput "Hi" EmptyString "images/z.png") Sample.anonymous Sample.world
  = (Throw not_authenticated, Sample.world)
  /\ resolvers.deletePost "p1" Sample.anonymous Sample.world
     = (Throw not_authenticated, Sample.world).
Proof.
  destruct (gate_rejects_unauthenticated Sample.libs Sample.anonymous
              Sample.world eq_refl)
    as (_ & _ & Hcreate & _ & _ & _ & Hdelete & _).
  split; [apply Hcreate | apply Hdelete].
Defined.

(** ** Errors raised inside a [try] block *)

(** C1. A login whose email finds a stored user but whose password does
    not match that user's hash: the resolver builds the
    "Incorrect password." error with code 401 and throws it inside the
    [try] block, the [catch] prints it, and the resolver resolves with
    [undefined]. No token is issued, and nothing is rejected. *)
Theorem login_wrong_password_is_swallowed
        (L : Libs) (email password : string) (w : World) (u : UserDoc) :
  User.by_email email (db_users w) = Some u ->
  bcrypt_compare L password (u_password u) = false ->
  resolvers.login_try L email password w
  = (Throw (set_code 401 (new_Error "Incorrect password.")),
     record_op (OpUserFindOne email) w)
  /\ resolvers.login L email password w
     = (Ok None,
        print_error (set_code 401 (new_Error "Incorrect password."))
                    (record_op (OpUserFindOne email) w)).
Proof.
  intros Hfind Hcmp.
  assert (Htry : resolvers.login_try L email password w
                 = (Throw (set_code 401 (new_Error "Incorrect password.")),
                    record_op (OpUserFindOne email) w)).
  { unfold resolvers.login_try, bind, User.findOne.
    rewrite Hfind. simpl. rewrite Hcmp. reflexivity. }
  split; [exact Htry|].
  unfold resolvers.login, try_log. now rewrite Htry.
Qed.

Lemma login_wrong_password_is_swallowed_witness :
  resolvers.login Sample.libs "ann@example.com" "tulip-43" Sample.world
  = (Ok None,
     print_error (set_code 401 (new_Error "Incorrect password."))
                 (record_op (OpUserFindOne "ann@example.com") Sample.world)).
Proof.
  exact (proj2 (login_wrong_password_is_swallowed Sample.libs
                  "ann@example.com" "tulip-43" Sample.world Sample.ann
                  eq_refl eq_refl)).
Defined.

(** C3. An authenticated [updatePost] or [deletePost] on a stored post
    whose creator is another user: the "Unauthorized." error with code 403
    is thrown inside the [try] block and printed by the [catch]; the
    resolver resolves with [undefined] instead of failing. The users, the
    posts and the image files are left as they were. *)
Theorem non_owner_error_is_swallowed
        (L : Libs) (id : string) (postInput : PostInputData) (req : Request)
        (w : World) (target : PostDoc) (owner : UserDoc) :
  isAuth req = true ->
  Post.lookup id (db_posts w) = Some target ->
  User.lookup (toString (p_creator target)) (db_users w) = Some owner ->
  toString (p_creator target) <> userId req ->
  let forbidden := set_code 403 (new_Error "Unauthorized.") in
  (exists w1,
      resolvers.updatePost L id postInput req w = (Ok None, w1)
      /\ console w1 = console w ++ [forbidden]
      /\ db_posts w1 = db_posts w /\ db_users w1 = db_users w
      /\ unlinked w1 = unlinked w)
  /\ (exists w2,
         resolvers.deletePost id req w = (Ok None, w2)
         /\ console w2 = console w ++ [forbidden]
         /\ db_posts w2 = db_posts w /\ db_users w2 = db_users w
         /\ unlinked w2 = unlinked w).
Proof.
  intros Hflag Hpost Howner Hdiff forbidden.
  pose proof (user_lookup_id _ _ _ Howner) as Hid.
  split.
  - unfold resolvers.updatePost, resolvers.updatePost_try, try_log, bind,
      Post.findById, Post.populate.
    rewrite Hflag. simpl. rewrite Hpost. simpl. rewrite Howner.
    assert (Hne : String.eqb (toString (u_id owner)) (userId req) = false)
      by (apply String.eqb_neq; congruence).
    rewrite Hne. simpl. eexists. repeat split.
  - unfold resolvers.deletePost, resolvers.deletePost_try, try_log, bind,
      Post.findById.
    rewrite Hflag. simpl. rewrite Hpost.
    assert (Hne : String.eqb (toString (p_creator target)) (userId req) = false)
      by (now apply String.eqb_neq).
    rewrite Hne. simpl. eexists. repeat split.
Qed.

Lemma non_owner_error_is_swallowed_witness :
  (exists w1,
      resolvers.updatePost Sample.libs "p1"
        (mkPostInput "Hello World" "Hello World" "images/n.png")
        Sample.as_bob Sample.world = (Ok None, w1)
      /\ db_posts w1 = db_posts Sample.world)
  /\ (exists w2,
         resolvers.deletePost "p1" Sample.as_bob Sample.world = (Ok None, w2)
         /\ db_posts w2 = db_posts Sample.world).
Proof.
  destruct (non_owner_error_is_swallowed Sample.libs "p1"
              (mkPostInput "Hello World" "Hello World" "images/n.png")
              Sample.as_bob Sample.world Sample.p1 Sample.ann
              eq_refl eq_refl eq_refl)
    as [(w1 & Hu & _ & Hp1 & _) (w2 & Hd & _ & Hp2 & _)].
  - discriminate.
  - split; [exists w1 | exists w2]; split; assumption.
Defined.

(** ** Signing up with a registered email *)

(** C2, as stated, fails: with a registered email and a password that is
    too short, [createUser] rejects with the "Invalid input." validation
    error (code 422), not with "User exists already."; validation runs
    before the lookup. *)
Lemma createUser_registered_email_short_password :
  let input := mkUserInput "ann@example.com" "Ann" "abc" in
  User.by_email (ui_email input) (db_users Sample.world) = Some Sample.ann
  /\ resolvers.createUser Sample.libs input Sample.anonymous Sample.world
     = (Throw (invalid_input [mkFieldError "Password too short."]),
        Sample.world)
  /\ ~ (exists e w',
           resolvers.createUser Sample.libs input Sample.anonymous Sample.world
           = (Throw e, w')
           /\ e_message e = "User exists already.").
Proof.
  cbv zeta. split; [reflexivity|]. split; [reflexivity|].
  intros (e & w' & Hrun & Hmsg).
  vm_compute in Hrun. inversion Hrun; subst e. discriminate Hmsg.
Qed.

(** C2, amended. A [createUser] call whose email is that of a stored user
    creates no user record and returns no record (a [UserData] result has
    no token field at all). When the input fails validation the call
    rejects with the "Invalid input." error, code 422, carrying the field
    errors, before any lookup; otherwise the uniqueness check in the [try]
    block raises "User exists already.". *)
Theorem createUser_registered_email
        (L : Libs) (userInput : UserInputData) (req : Request) (w : World)
        (existing : UserDoc) :
  User.by_email (ui_email userInput) (db_users w) = Some existing ->
  db_users (snd (resolvers.createUser L userInput req w)) = db_users w
  /\ (forall d, fst (resolvers.createUser L userInput req w) <> Ok (Some d))
  /\ (resolvers.user_input_errors L userInput <> [] ->
      resolvers.createUser L userInput req w
      = (Throw (invalid_input (resolvers.user_input_errors L userInput)), w))
  /\ (resolvers.user_input_errors L userInput = [] ->
      resolvers.createUser_try L userInput w
      = (Throw (new_Error "User exists already."),
         record_op (OpUserFindOne (ui_email userInput)) w)).
Proof.
  intros Hfind.
  assert (Htry : resolvers.createUser_try L userInput w
                 = (Throw (new_Error "User exists already."),
                    record_op (OpUserFindOne (ui_email userInput)) w)).
  { unfold resolvers.createUser_try, bind, User.findOne.
    now rewrite Hfind. }
  unfold resolvers.createUser, try_log.
  destruct (resolvers.user_input_errors L userInput) as [|fe rest] eqn:Herr;
    simpl.
  - rewrite Htry. simpl.
    split; [reflexivity|]. split; [intros d H; discriminate H|].
    split; [congruence | reflexivity].
  - split; [reflexivity|]. split; [intros d H; discriminate H|].
    split; [reflexivity | discriminate].
Qed.

Lemma createUser_registered_email_witness :
  db_users (snd (resolvers.createUser Sample.libs
                   (mkUserInput "ann@example.com" "Ann" "abcdef")
                   Sample.anonymous Sample.world))
  = db_users Sample.world
  /\ resolvers.createUser Sample.libs
       (mkUserInput "ann@example.com" "Ann" "abc")
       Sample.anonymous Sample.world
     = (Throw (invalid_input [mkFieldError "Password too short."]),
        Sample.world).
Proof.
  split.
  - exact (proj1 (createUser_registered_email Sample.libs
                    (mkUserInput "ann@example.com" "Ann" "abcdef")
                    Sample.anonymous Sample.world Sample.ann eq_refl)).
  - destruct (createUser_registered_email Sample.libs
                (mkUserInput "ann@example.com" "Ann" "abc")
                Sample.anonymous Sample.world Sample.ann eq_refl)
      as (_ & _ & Hinvalid & _).
    apply Hinvalid. discriminate.
Defined.

(** ** Validation of a new post *)

(** C4. An authenticated [createPost] whose title or content is empty or
    shorter than 5 characters rejects with the "Invalid input." error,
    code 422, carrying the non-empty list of field errors, with
    "Title is invalid." in it when the title is at fault and
    "Content is invalid." when the content is, and changes nothing. The
    title "Hi" yields "Title is invalid.". Title "Hello World" with
    content "Hello World" passes validation, and for a signed-in user the
    post is created: it is appended to the posts collection and
    returned. *)
Theorem createPost_validation
        (L : Libs) (req : Request) (w : World) :
  isAuth req = true ->
  (forall postInput,
      pi_title postInput = EmptyString
      \/ String.length (pi_title postInput) < 5
      \/ pi_content postInput = EmptyString
      \/ String.length (pi_content postInput) < 5 ->
      let errors := resolvers.post_input_errors postInput in
      resolvers.createPost L postInput req w
      = (Throw (invalid_input errors), w)
      /\ e_code (invalid_input errors) = Some 422%Z
      /\ e_data (invalid_input errors) = Some errors
      /\ errors <> []
      /\ (String.length (pi_title postInput) < 5 ->
          In (mkFieldError "Title is invalid.") errors)
      /\ (String.length (pi_content postInput) < 5 ->
          In (mkFieldError "Content is invalid.") errors))
  /\ (forall content imageUrl,
         exists errors,
           resolvers.createPost L (mkPostInput "Hi" content imageUrl) req w
           = (Throw (invalid_input errors), w)
           /\ In (mkFieldError "Title is invalid.") errors)
  /\ (forall imageUrl,
         let postInput := mkPostInput "Hello World" "Hello World" imageUrl in
         resolvers.post_input_errors postInput = []
         /\ (signed_in w req ->
             exists data w' created,
               resolvers.createPost L postInput req w = (Ok (Some data), w')
               /\ db_posts w' = db_posts w ++ [created]
               /\ p_title created = "Hello World"
               /\ p_content created = "Hello World"
               /\ p_imageUrl created = imageUrl
               /\ toString (p_creator created) = userId req
               /\ pd_id data = toString (p_id created)
               /\ pd_title data = "Hello World"
               /\ pd_content data = "Hello World")).
Proof.
  intros Hflag. split; [|split].
  - intros postInput Hbad errors.
    assert (Htitle : String.length (pi_title postInput) < 5 ->
                     In (mkFieldError "Title is invalid.") errors).
    { intros Hlt. subst errors. unfold resolvers.post_input_errors.
      destruct (validator.isEmpty (pi_title postInput)
                || negb (validator.isLength (pi_title postInput) 5)) eqn:E.
      - destruct (validator.isEmpty (pi_content postInput)
                  || negb (validator.isLength (pi_content postInput) 5));
          simpl; auto.
      - apply field_check in E. lia. }
    assert (Hcontent : String.length (pi_content postInput) < 5 ->
                       In (mkFieldError "Content is invalid.") errors).
    { intros Hlt. subst errors. unfold resolvers.post_input_errors.
      destruct (validator.isEmpty (pi_content postInput)
                || negb (validator.isLength (pi_content postInput) 5)) eqn:E.
      - destruct (validator.isEmpty (pi_title postInput)
                  || negb (validator.isLength (pi_title postInput) 5));
          simpl; auto.
      - apply field_check in E. lia. }
    assert (Hne : errors <> []).
    { intros Hnil. apply post_input_errors_nil in Hnil.
      destruct Hnil as [Ht Hc].
      destruct Hbad as [H|[H|[H|H]]]; try lia;
        rewrite H in *; simpl in *; lia. }
    repeat split; auto.
    unfold resolvers.createPost. rewrite Hflag. simpl.
    fold errors. now rewrite (nonempty_length _ Hne).
  - intros content imageUrl.
    exists (resolvers.post_input_errors (mkPostInput "Hi" content imageUrl)).
    split.
    + unfold resolvers.createPost. rewrite Hflag. simpl.
      unfold resolvers.post_input_errors. simpl.
      destruct (validator.isEmpty content
                || negb (validator.isLength content 5)); reflexivity.
    + unfold resolvers.post_input_errors. simpl.
      destruct (validator.isEmpty content
                || negb (validator.isLength content 5)); simpl; auto.
  - intros imageUrl postInput. split; [reflexivity|].
    intros [_ [u Hu]].
    unfold resolvers.createPost, resolvers.createPost_try, try_log, bind,
      User.findById.
    rewrite Hflag. simpl. rewrite Hu. simpl.
    do 3 eexists. split; [reflexivity|]. simpl.
    repeat split. now apply user_lookup_id in Hu.
Qed.

Lemma createPost_validation_witness :
  (exists errors,
      resolvers.createPost Sample.libs
        (mkPostInput "Hi" "Hello World" "images/z.png")
        Sample.as_ann Sample.world
      = (Throw (invalid_input errors), Sample.world)
      /\ In (mkFieldError "Title is invalid.") errors)
  /\ (exists data w' created,
         resolvers.createPost Sample.libs
           (mkPostInput "Hello World" "Hello World" "images/z.png")
           Sample.as_ann Sample.world
         = (Ok (Some data), w')
         /\ db_posts w' = db_posts Sample.world ++ [created]).
Proof.
  destruct (createPost_validation Sample.libs Sample.as_ann Sample.world
              eq_refl) as (_ & Hhi & Hhello).
  split.
  - exact (Hhi "Hello World" "images/z.png").
  - destruct (Hhello "images/z.png") as [_ Hcreate].
    destruct Hcreate as (data & w' & created & Hrun & Hposts & _).
    + split; [reflexivity|]. exists Sample.ann. reflexivity.
    + exists data, w', created. split; assumption.
Defined.

(** ** Listing posts *)

(** C5. For an authenticated [posts] query, over any stored posts and any
    page number: a page that is returned holds at most 2 posts, they are
    the response shapes of stored posts in descending order of creation
    time, and [totalPosts] is the number of all stored posts. A page is
    returned whenever the page number is absent or not negative, and the
    query changes neither collection. *)
Theorem posts_page_is_bounded_sorted_and_counted
        (L : Libs) (page : option Z) (req : Request) (w : World) :
  isAuth req = true ->
  (forall data w',
      resolvers.posts L page req w = (Ok (Some data), w') ->
      length (psd_posts data) <= 2
      /\ psd_totalPosts data = length (db_posts w)
      /\ exists docs,
          psd_posts data
          = map (fun p =>
                   resolvers.post_data L
                     (Populated (User.lookup (toString (p_creator p))
                                             (db_users w))) p) docs
          /\ newest_first docs
          /\ incl docs (db_posts w))
  /\ (page = None \/ (exists p, page = Some p /\ (0 <= p)%Z) ->
      exists data w',
        resolvers.posts L page req w = (Ok (Some data), w')
        /\ db_posts w' = db_posts w /\ db_users w' = db_users w).
Proof.
  intros Hflag.
  unfold resolvers.posts, resolvers.posts_try, try_log, bind,
    Post.countDocuments, Post.find_page, Post.populate_all, ret.
  rewrite Hflag. simpl negb. cbv iota.
  set (pg := if page_is_falsy page then 1%Z
             else match page with Some p => p | None => 1%Z end).
  cbn -[firstn skipn Post.sort_desc Z.ltb Z.mul Z.sub Z.to_nat].
  destruct ((pg - 1) * 2 <? 0)%Z eqn:Eskip.
  - split; [intros data w' H; discriminate H|].
    intros Hpage. exfalso. apply Z.ltb_lt in Eskip.
    destruct Hpage as [->|(p & -> & Hp)]; subst pg; simpl in Eskip; [lia|].
    destruct (p =? 0)%Z eqn:E0; [lia|]. apply Z.eqb_neq in E0. lia.
  - split.
    + intros data w'.
      remember (firstn 2 (skipn (Z.to_nat ((pg - 1) * 2))
                                (Post.sort_desc (db_posts w)))) as docs
        eqn:Hdocs.
      intros H. injection H as <- <-.
      cbn [psd_posts psd_totalPosts].
      rewrite !length_map. split; [subst docs; apply firstn_le_length|].
      split; [reflexivity|].
      exists docs.
      split; [now rewrite map_map|].
      subst docs. split.
      * apply newest_first_firstn, newest_first_skipn, sort_desc_sorted.
      * intros x Hx. apply sort_desc_incl. eapply page_incl; eauto.
    + intros _. do 2 eexists. split; [reflexivity|]. split; reflexivity.
Qed.

Lemma posts_page_is_bounded_sorted_and_counted_witness :
  exists data w',
    resolvers.posts Sample.libs (Some 1%Z) Sample.as_ann Sample.world
    = (Ok (Some data), w')
    /\ length (psd_posts data) <= 2
    /\ psd_totalPosts data = 3.
Proof.
  destruct (posts_page_is_bounded_sorted_and_counted Sample.libs (Some 1%Z)
              Sample.as_ann Sample.world eq_refl) as [Hprops Htotal].
  destruct Htotal as (data & w' & Hrun & _).
  - right. exists 1%Z. split; [reflexivity | lia].
  - exists data, w'. split; [exact Hrun|].
    destruct (Hprops data w' Hrun) as (Hlen & Hcount & _).
    split; [exact Hlen | exact Hcount].
Defined.

(** ** Order of the checks *)

(** C7, as stated, fails: Bob's [updatePost] on Ann's post with the title
    "Hi" does not end in a validation error with code 422; the [try] block
    raises the ownership error with code 403, before it validates
    anything. *)
Lemma updatePost_non_owner_invalid_input :
  let postInput := mkPostInput "Hi" "x" "images/n.png" in
  resolvers.post_input_errors postInput <> []
  /\ ~ (exists e w',
           resolvers.updatePost Sample.libs "p1" postInput Sample.as_bob
             Sample.world = (Throw e, w')
           /\ e_code e = Some 422%Z)
  /\ fst (resolvers.updatePost_try Sample.libs "p1" postInput Sample.as_bob
            Sample.world)
     = Throw (set_code 403 (new_Error "Unauthorized.")).
Proof.
  cbv zeta. split; [discriminate|]. split; [|reflexivity].
  intros (e & w' & Hrun & _). vm_compute in Hrun. discriminate Hrun.
Qed.

(** C7, amended. [createUser] and [createPost] validate their input before
    the business checks and before any persistence call: invalid input
    rejects with code 422 whatever the store holds. [updatePost] checks
    existence and ownership first: for an authenticated call by a
    non-owner the [try] block raises the ownership error with code 403
    whatever the title and content are, and the call never ends in the
    validation error. *)
Theorem validation_order
        (L : Libs) (req : Request) (w : World) :
  (forall userInput,
      resolvers.user_input_errors L userInput <> [] ->
      resolvers.createUser L userInput req w
      = (Throw (invalid_input (resolvers.user_input_errors L userInput)), w))
  /\ (forall postInput,
         isAuth req = true ->
         resolvers.post_input_errors postInput <> [] ->
         resolvers.createPost L postInput req w
         = (Throw (invalid_input (resolvers.post_input_errors postInput)), w))
  /\ (forall id postInput target owner,
         isAuth req = true ->
         Post.lookup id (db_posts w) = Some target ->
         User.lookup (toString (p_creator target)) (db_users w) = Some owner ->
         toString (p_creator target) <> userId req ->
         fst (resolvers.updatePost_try L id postInput req w)
         = Throw (set_code 403 (new_Error "Unauthorized."))
         /\ forall e w',
             resolvers.updatePost L id postInput req w = (Throw e, w') ->
             e_code e <> Some 422%Z).
Proof.
  split; [|split].
  - intros userInput Hne. unfold resolvers.createUser.
    now rewrite (nonempty_length _ Hne).
  - intros postInput Hflag Hne. unfold resolvers.createPost.
    rewrite Hflag. simpl. now rewrite (nonempty_length _ Hne).
  - intros id postInput target owner Hflag Hpost Howner Hdiff.
    pose proof (user_lookup_id _ _ _ Howner) as Hid.
    assert (Hne : String.eqb (toString (u_id owner)) (userId req) = false)
      by (apply String.eqb_neq; congruence).
    assert (Htry : fst (resolvers.updatePost_try L id postInput req w)
                   = Throw (set_code 403 (new_Error "Unauthorized."))).
    { unfold resolvers.updatePost_try, bind, Post.findById, Post.populate.
      rewrite Hpost. simpl. rewrite Howner, Hne. reflexivity. }
    split; [exact Htry|].
    intros e w'. unfold resolvers.updatePost, try_log.
    rewrite Hflag. simpl.
    destruct (resolvers.updatePost_try L id postInput req w) as [[a|e0] w1];
      discriminate.
Qed.

Lemma validation_order_witness :
  resolvers.createUser Sample.libs (mkUserInput "ann@example.com" "Ann" "abc")
    Sample.anonymous Sample.world
  = (Throw (invalid_input [mkFieldError "Password too short."]), Sample.world)
  /\ resolvers.createPost Sample.libs
       (mkPostInput "Hi" "Hello World" "images/z.png") Sample.as_ann
       Sample.world
     = (Throw (invalid_input [mkFieldError "Title is invalid."]), Sample.world)
  /\ fst (resolvers.updatePost_try Sample.libs "p1"
            (mkPostInput "Hi" "x" "images/n.png") Sample.as_bob Sample.world)
     = Throw (set_code 403 (new_Error "Unauthorized.")).
Proof.
  destruct (validation_order Sample.libs Sample.anonymous Sample.world)
    as (Huser & _ & _).
  destruct (validation_order Sample.libs Sample.as_ann Sample.world)
    as (_ & Hpost & _).
  destruct (validation_order Sample.libs Sample.as_bob Sample.world)
    as (_ & _ & Hupdate).
  split; [|split].
  - apply (Huser (mkUserInput "ann@example.com" "Ann" "abc")). discriminate.
  - apply (Hpost (mkPostInput "Hi" "Hello World" "images/z.png"));
      [reflexivity | discriminate].
  - apply (Hupdate "p1" (mkPostInput "Hi" "x" "images/n.png") Sample.p1
                   Sample.ann); [reflexivity | reflexivity | reflexivity |].
    discriminate.
Defined.

(** ** Rendering errors *)

(** C8. For an error a resolver threw, [formatError] computes [code] from
    the error's [code] (500 by default) and then builds
    [{ message, status, data }]: no scope declares [status], so reading it
    throws a [ReferenceError] and no error object is rendered. The Express
    error handler takes the status from [statusCode], which no error of
    this program carries: an error with any [code] is sent with status
    500. *)
Theorem formatError_reads_undeclared_status
        (message : string) (originalError : JsError) :
  app.formatError (app.mkGraphQLError message (Some originalError))
  = Throw (ReferenceError "status")
  /\ forall (c : Z) (msg : string),
      app.error_handler (set_code c (new_Error msg))
      = app.mkResponse 500 msg None.
Proof.
  split; reflexivity.
Qed.

(** The error [PUT /post-image] throws for an unauthenticated request has
    neither [code] nor [statusCode]: the handler sends it with status 500
    and the body [{ message, data }]. *)
Lemma post_image_error_is_rendered_500 (req : Request) (e : JsError) :
  app.post_image_gate req = Throw e ->
  app.error_handler e = app.mkResponse 500 "Not authenticated!" None.
Proof.
  unfold app.post_image_gate.
  destruct (isAuth req); simpl; intros H; [discriminate|].
  injection H as <-. reflexivity.
Qed.

(** ** Updating the image of a post *)

(** C9, as stated, fails: Ann's successful [updatePost] on her own post with
    the [imageUrl] string "undefined" leaves the stored [imageUrl] as it
    was. *)
Lemma updatePost_imageUrl_undefined_is_kept :
  let postInput := mkPostInput "Hello World" "Hello World" "undefined" in
  exists data w' stored,
    resolvers.updatePost Sample.libs "p1" postInput Sample.as_ann Sample.world
    = (Ok (Some data), w')
    /\ Post.lookup "p1" (db_posts w') = Some stored
    /\ p_title stored = "Hello World"
    /\ p_imageUrl stored = "images/a.png"
    /\ p_imageUrl stored <> pi_imageUrl postInput.
Proof.
  cbv zeta. do 3 eexists.
  split; [reflexivity|]. split; [reflexivity|].
  split; [reflexivity|]. split; [reflexivity | discriminate].
Qed.

(** C9, amended. After a successful [updatePost] the post is still stored
    under its id, with the title and content of the input; its [imageUrl]
    is the one supplied in the input for every supplied string other than
    "undefined", and for the string "undefined" it is the [imageUrl] the
    post had before. The response carries the stored [imageUrl]. *)
Theorem updatePost_sets_imageUrl
        (L : Libs) (id : string) (postInput : PostInputData) (req : Request)
        (w w' : World) (data : PostData) :
  resolvers.updatePost L id postInput req w = (Ok (Some data), w') ->
  exists before after,
    Post.lookup id (db_posts w) = Some before
    /\ Post.lookup id (db_posts w') = Some after
    /\ p_title after = pi_title postInput
    /\ p_content after = pi_content postInput
    /\ (pi_imageUrl postInput <> "undefined" ->
        p_imageUrl after = pi_imageUrl postInput)
    /\ (pi_imageUrl postInput = "undefined" ->
        p_imageUrl after = p_imageUrl before)
    /\ pd_imageUrl data = p_imageUrl after.
Proof.
  unfold resolvers.updatePost, resolvers.updatePost_try, try_log, bind,
    Post.findById, Post.populate, Post.save, ret, throw.
  destruct (isAuth req); simpl; [|discriminate].
  destruct (Post.lookup id (db_posts w)) as [before|] eqn:Hpost; simpl;
    [|discriminate].
  destruct (User.lookup (toString (p_creator before)) (db_users w))
    as [c|]; [|discriminate].
  destruct (negb (String.eqb (toString (u_id c)) (userId req)));
    [discriminate|].
  destruct (Nat.ltb 0 (length (resolvers.post_input_errors postInput)));
    [discriminate|].
  intros H. injection H as <- <-.
  exists before. eexists. split; [reflexivity|]. split.
  - cbn [db_posts record_op with_posts].
    apply (post_lookup_replace id _ before); [exact Hpost | reflexivity].
  - cbn [p_title p_content p_imageUrl pd_imageUrl resolvers.post_data
         resolvers.apply_post_input].
    split; [reflexivity|]. split; [reflexivity|].
    destruct (String.eqb (pi_imageUrl postInput) "undefined") eqn:E; simpl.
    + apply String.eqb_eq in E. split; [congruence|]. split; reflexivity.
    + apply String.eqb_neq in E. split; [reflexivity|].
      split; [congruence | reflexivity].
Qed.

Lemma updatePost_sets_imageUrl_witness :
  exists before after,
    Post.lookup "p1" (db_posts Sample.world) = Some before
    /\ Post.lookup "p1"
         (db_posts (snd (resolvers.updatePost Sample.libs "p1"
                           (mkPostInput "Hello World" "Hello World"
                                        "images/n.png")
                           Sample.as_ann Sample.world)))
       = Some after
    /\ p_imageUrl after = "images/n.png".
Proof.
  destruct (updatePost_sets_imageUrl Sample.libs "p1"
              (mkPostInput "Hello World" "Hello World" "images/n.png")
              Sample.as_ann Sample.world _ _ eq_refl)
    as (before & after & Hb & Ha & _ & _ & Hset & _).
  exists before, after. split; [exact Hb|]. split; [exact Ha|].
  apply Hset. discriminate.
Defined.

(** ** The password hash in responses *)

(** C10. The record a successful [createUser], [user] or [updateStatus]
    call returns carries the stored password hash: for [createUser] the
    hash just computed, which is also the password of the user document
    now in the store; for [user] and [updateStatus] the password field of
    the stored document of the requesting user. *)
Theorem responses_carry_password_hash (L : Libs) (req : Request) (w : World) :
  (forall userInput data w',
      resolvers.createUser L userInput req w = (Ok (Some data), w') ->
      ud_password data = bcrypt_hash L (ui_password userInput) 12
      /\ exists stored,
          In stored (db_users w')
          /\ toString (u_id stored) = ud_id data
          /\ u_password stored = ud_password data)
  /\ (forall data w',
         resolvers.user req w = (Ok (Some data), w') ->
         exists stored,
           User.lookup (userId req) (db_users w) = Some stored
           /\ ud_password data = u_password stored)
  /\ (forall status data w',
         resolvers.updateStatus status req w = (Ok (Some data), w') ->
         exists stored,
           User.lookup (userId req) (db_users w) = Some stored
           /\ ud_password data = u_password stored
           /\ ud_status data = status
           /\ In (User.set_status status stored) (db_users w')).
Proof.
  split; [|split].
  - intros userInput data w'.
    unfold resolvers.createUser, resolvers.createUser_try, try_log, bind,
      User.findOne, User.create, User.save, ret, throw.
    destruct (Nat.ltb 0 (length (resolvers.user_input_errors L userInput)));
      [discriminate|].
    simpl.
    destruct (User.by_email (ui_email userInput) (db_users w));
      [discriminate|].
    intros H. injection H as <- <-.
    split; [reflexivity|].
    eexists. split; [apply upsert_In|]. split; reflexivity.
  - intros data w'.
    unfold resolvers.user, resolvers.user_try, try_log, bind, User.findById,
      ret, throw.
    destruct (isAuth req); simpl; [|discriminate].
    destruct (User.lookup (userId req) (db_users w)) as [stored|];
      [|discriminate].
    intros H. injection H as <- <-.
    exists stored. split; reflexivity.
  - intros status data w'.
    unfold resolvers.updateStatus, resolvers.updateStatus_try, try_log, bind,
      User.findById, User.save, ret, throw.
    destruct (isAuth req); simpl; [|discriminate].
    destruct (User.lookup (userId req) (db_users w)) as [stored|];
      [|discriminate].
    intros H. injection H as <- <-.
    exists stored. split; [reflexivity|]. split; [reflexivity|].
    split; [reflexivity|]. apply upsert_In.
Qed.

Lemma responses_carry_password_hash_witness :
  (exists data w',
      resolvers.createUser Sample.libs
        (mkUserInput "cy@example.com" "Cy" "lupin-99") Sample.anonymous
        Sample.world = (Ok (Some data), w')
      /\ ud_password data = Sample.hash "lupin-99" 12)
  /\ (exists data w',
         resolvers.user Sample.as_ann Sample.world = (Ok (Some data), w')
         /\ ud_password data = u_password Sample.ann)
  /\ (exists data w',
         resolvers.updateStatus "Busy" Sample.as_bob Sample.world
         = (Ok (Some data), w')
         /\ ud_password data = u_password Sample.bob).
Proof.
  destruct (responses_carry_password_hash Sample.libs Sample.anonymous
              Sample.world) as (Hcreate & _ & _).
  destruct (responses_carry_password_hash Sample.libs Sample.as_ann
              Sample.world) as (_ & Huser & _).
  destruct (responses_carry_password_hash Sample.libs Sample.as_bob
              Sample.world) as (_ & _ & Hstatus).
  split; [|split].
  - do 2 eexists. split; [reflexivity|].
    exact (proj1 (Hcreate (mkUserInput "cy@example.com" "Cy" "lupin-99")
                          _ _ eq_refl)).
  - do 2 eexists. split; [reflexivity|].
    destruct (Huser _ _ eq_refl) as (stored & Hs & Hp).
    injection Hs as <-. exact Hp.
  - do 2 eexists. split; [reflexivity|].
    destruct (Hstatus "Busy" _ _ eq_refl) as (stored & Hs & Hp & _).
    injection Hs as <-. exact Hp.
Defined.

(** * Further properties of the resolvers and routes *)

(** ** Lookups after a write *)

Lemma by_email_email (email : string) (us : list UserDoc) (u : UserDoc) :
  User.by_email email us = Some u -> u_email u = email /\ In u us.
Proof.
  unfold User.by_email. intros H. apply find_some in H.
  destruct H as [Hin H]. split; [now apply String.eqb_eq in H | exact Hin].
Qed.

Lemma by_email_none (email : string) (us : list UserDoc) :
  User.by_email email us = None -> ~ In email (map u_email us).
Proof.
  unfold User.by_email. intros H Hin.
  apply in_map_iff in Hin. destruct Hin as (u & Hu & Hin).
  pose proof (find_none _ _ H u Hin) as Hf. simpl in Hf.
  apply String.eqb_neq in Hf. congruence.
Qed.

Lemma upsert_In_inv (u x : UserDoc) (us : list UserDoc) :
  In x (User.upsert u us) -> x = u \/ In x us.
Proof.
  induction us as [|v rest IH]; simpl.
  - intros [H|[]]; auto.
  - destruct (String.eqb (u_id v) (u_id u)); simpl.
    + intros [H|H]; auto.
    + intros [H|H]; auto. destruct (IH H); auto.
Qed.

Lemma by_email_upsert (u : UserDoc) (us : list UserDoc) :
  User.by_email (u_email u) us = None ->
  User.by_email (u_email u) (User.upsert u us) = Some u.
Proof.
  unfold User.by_email.
  induction us as [|v rest IH]; simpl.
  - now rewrite String.eqb_refl.
  - destruct (String.eqb (u_email v) (u_email u)) eqn:Ev; [discriminate|].
    intros Hrest.
    destruct (String.eqb (u_id v) (u_id u)); simpl.
    + now rewrite String.eqb_refl.
    + rewrite Ev. now apply IH.
Qed.

Lemma user_lookup_upsert (id : string) (u0 u : UserDoc) (us : list UserDoc) :
  User.lookup id us = Some u0 -> u_id u = u_id u0 ->
  User.lookup id (User.upsert u us) = Some u.
Proof.
  intros Hfind Hid.
  pose proof (user_lookup_id _ _ _ Hfind) as H0. unfold toString in H0.
  revert Hfind. unfold User.lookup, toString.
  induction us as [|v rest IH]; simpl; [discriminate|].
  destruct (String.eqb (u_id v) id) eqn:Ev.
  - intros _. apply String.eqb_eq in Ev.
    assert (Hvu : String.eqb (u_id v) (u_id u) = true)
      by (apply String.eqb_eq; congruence).
    rewrite Hvu. simpl.
    assert (Hu : String.eqb (u_id u) id = true)
      by (apply String.eqb_eq; congruence).
    now rewrite Hu.
  - intros Hrest.
    assert (Hvu : String.eqb (u_id v) (u_id u) = false).
    { apply String.eqb_neq. apply String.eqb_neq in Ev. congruence. }
    rewrite Hvu. simpl. rewrite Ev. now apply IH.
Qed.

Lemma user_lookup_upsert_other (id : string) (u : UserDoc)
      (us : list UserDoc) :
  u_id u <> id -> User.lookup id (User.upsert u us) = User.lookup id us.
Proof.
  intros Hne. apply String.eqb_neq in Hne.
  unfold User.lookup, toString.
  induction us as [|v rest IH]; simpl.
  - now rewrite Hne.
  - destruct (String.eqb (u_id v) (u_id u)) eqn:Evu; simpl.
    + apply String.eqb_eq in Evu. rewrite Evu, Hne. reflexivity.
    + destruct (String.eqb (u_id v) id); [reflexivity | exact IH].
Qed.

Lemma upsert_credentials (id : string) (u0 u : UserDoc) (us : list UserDoc) :
  User.lookup id us = Some u0 -> credentials u = credentials u0 ->
  map credentials (User.upsert u us) = map credentials us.
Proof.
  intros Hfind Hcred.
  assert (Hid : u_id u = u_id u0) by (unfold credentials in Hcred; congruence).
  pose proof (user_lookup_id _ _ _ Hfind) as H0. unfold toString in H0.
  revert Hfind. unfold User.lookup, toString.
  induction us as [|v rest IH]; simpl; [discriminate|].
  destruct (String.eqb (u_id v) id) eqn:Ev.
  - intros Hv. injection Hv as ->. apply String.eqb_eq in Ev.
    rewrite Hid, String.eqb_refl. simpl. now rewrite Hcred.
  - intros Hrest.
    assert (Hvu : String.eqb (u_id v) (u_id u) = false).
    { apply String.eqb_neq. apply String.eqb_neq in Ev. congruence. }
    rewrite Hvu. simpl. f_equal. now apply IH.
Qed.

Lemma post_lookup_app_new (id : string) (ps : list PostDoc) (p : PostDoc) :
  Post.lookup id ps = None -> p_id p = id ->
  Post.lookup id (ps ++ [p]) = Some p.
Proof.
  unfold Post.lookup, toString. intros Hnone Hid.
  induction ps as [|q rest IH]; simpl in *.
  - subst id. now rewrite String.eqb_refl.
  - destruct (String.eqb (p_id q) id); [discriminate | now apply IH].
Qed.

Lemma post_lookup_app_other (id : string) (ps : list PostDoc) (p : PostDoc) :
  p_id p <> id -> Post.lookup id (ps ++ [p]) = Post.lookup id ps.
Proof.
  unfold Post.lookup, toString. intros Hne. apply String.eqb_neq in Hne.
  induction ps as [|q rest IH]; simpl.
  - now rewrite Hne.
  - destruct (String.eqb (p_id q) id); [reflexivity | exact IH].
Qed.

Lemma post_lookup_replace_other (id : string) (q : PostDoc)
      (ps : list PostDoc) :
  p_id q <> id -> Post.lookup id (Post.replace q ps) = Post.lookup id ps.
Proof.
  unfold Post.lookup, Post.replace, toString. intros Hne.
  apply String.eqb_neq in Hne.
  induction ps as [|r rest IH]; simpl; [reflexivity|].
  destruct (String.eqb (p_id r) (p_id q)) eqn:Erq.
  - apply String.eqb_eq in Erq. rewrite Erq, Hne. exact IH.
  - destruct (String.eqb (p_id r) id); [reflexivity | exact IH].
Qed.

Lemma post_lookup_removed (id : string) (ps : list PostDoc) :
  Post.lookup id
    (filter (fun p => negb (String.eqb (toString (p_id p)) id)) ps) = None.
Proof.
  unfold Post.lookup, toString.
  induction ps as [|q rest IH]; simpl; [reflexivity|].
  destruct (String.eqb (p_id q) id) eqn:E; simpl; [exact IH|].
  now rewrite E.
Qed.

Lemma post_lookup_removed_other (id id' : string) (ps : list PostDoc) :
  id' <> id ->
  Post.lookup id'
    (filter (fun p => negb (String.eqb (toString (p_id p)) id)) ps)
  = Post.lookup id' ps.
Proof.
  unfold Post.lookup, toString. intros Hne.
  induction ps as [|q rest IH]; simpl; [reflexivity|].
  destruct (String.eqb (p_id q) id) eqn:E; simpl.
  - apply String.eqb_eq in E.
    assert (E' : String.eqb (p_id q) id' = false)
      by (apply String.eqb_neq; congruence).
    now rewrite E'.
  - destruct (String.eqb (p_id q) id'); [reflexivity | exact IH].
Qed.

Lemma ltb_length_nonempty {A} (l : list A) :
  Nat.ltb 0 (length l) = true -> l <> [].
Proof. destruct l; [discriminate | discriminate]. Qed.

Lemma ltb_length_empty {A} (l : list A) :
  Nat.ltb 0 (length l) = false -> l = [].
Proof. destruct l; [reflexivity | discriminate]. Qed.

(** A [try] block with a logging [catch] never rejects. *)
Lemma try_log_resolves {A} (body : M A) (w w' : World) (e : JsError) :
  try_log body w <> (Throw e, w').
Proof.
  unfold try_log. destruct (body w) as [[a|e0] w1]; discriminate.
Qed.

(** ** Signing in *)

(** X1. [login] issues a token exactly when the email finds a stored user
    and the password matches that user's hash; the token is signed over
    that user's id and email with the configured secret and a one-hour
    expiry, and the returned [userId] is that user's id. *)
Theorem login_issues_token_iff
        (L : Libs) (email password : string) (w : World) :
  (forall u,
      User.by_email email (db_users w) = Some u ->
      bcrypt_compare L password (u_password u) = true ->
      fst (resolvers.login L email password w)
      = Ok (Some (mkAuthData
                    (jwt_sign L (toString (u_id u)) email (JWT_SECRET L) "1h")
                    (toString (u_id u)))))
  /\ (forall data,
         fst (resolvers.login L email password w) = Ok (Some data) ->
         exists u,
           User.by_email email (db_users w) = Some u
           /\ bcrypt_compare L password (u_password u) = true
           /\ ad_userId data = toString (u_id u)).
Proof.
  unfold resolvers.login, resolvers.login_try, try_log, bind, User.findOne,
    ret, throw.
  split.
  - intros u Hu Hcmp. rewrite Hu. simpl. rewrite Hcmp. simpl.
    now rewrite (proj1 (by_email_email _ _ _ Hu)).
  - intros data.
    destruct (User.by_email email (db_users w)) as [u|]; simpl;
      [|discriminate].
    destruct (bcrypt_compare L password (u_password u)) eqn:Hcmp; simpl;
      [|discriminate].
    intros H. injection H as <-. exists u.
    split; [reflexivity|]. split; [exact Hcmp|]. reflexivity.
Qed.

Lemma login_issues_token_iff_witness :
  fst (resolvers.login Sample.libs "ann@example.com" "tulip-42" Sample.world)
  = Ok (Some (mkAuthData "u1.ann@example.com.1h" "u1")).
Proof.
  exact (proj1 (login_issues_token_iff Sample.libs "ann@example.com"
                  "tulip-42" Sample.world) Sample.ann eq_refl eq_refl).
Defined.

(** ** Reads *)

(** X2. [login], [posts], [post] and [user] only read: whatever their
    arguments and outcome, the users, the posts and the image files are
    afterwards what they were. *)
Theorem queries_are_read_only (L : Libs) (req : Request) (w : World) :
  (forall email password,
      let w' := snd (resolvers.login L email password w) in
      db_users w' = db_users w /\ db_posts w' = db_posts w
      /\ unlinked w' = unlinked w)
  /\ (forall page,
         let w' := snd (resolvers.posts L page req w) in
         db_users w' = db_users w /\ db_posts w' = db_posts w
         /\ unlinked w' = unlinked w)
  /\ (forall id,
         let w' := snd (resolvers.post L id req w) in
         db_users w' = db_users w /\ db_posts w' = db_posts w
         /\ unlinked w' = unlinked w)
  /\ (let w' := snd (resolvers.user req w) in
      db_users w' = db_users w /\ db_posts w' = db_posts w
      /\ unlinked w' = unlinked w).
Proof.
  split; [|split; [|split]].
  - intros email password.
    unfold resolvers.login, resolvers.login_try, try_log, bind, User.findOne,
      ret, throw.
    destruct (User.by_email email (db_users w)) as [u|]; simpl;
      [|repeat split].
    destruct (bcrypt_compare L password (u_password u)); simpl; repeat split.
  - intros page.
    unfold resolvers.posts, resolvers.posts_try, try_log, bind,
      Post.countDocuments, Post.find_page, Post.populate_all, ret, throw.
    destruct (isAuth req); simpl negb; cbv iota; [|repeat split].
    cbn -[firstn skipn Post.sort_desc Z.ltb Z.mul Z.sub Z.to_nat].
    match goal with
    | |- context [(?s <? 0)%Z] => destruct (s <? 0)%Z
    end; repeat split.
  - intros id.
    unfold resolvers.post, resolvers.post_try, try_log, bind, Post.findById,
      Post.populate, ret, throw.
    destruct (isAuth req); simpl; [|repeat split].
    destruct (Post.lookup id (db_posts w)); simpl; repeat split.
  - unfold resolvers.user, resolvers.user_try, try_log, bind, User.findById,
      ret, throw.
    destruct (isAuth req); simpl; [|repeat split].
    destruct (User.lookup (userId req) (db_users w)); simpl; repeat split.
Qed.

(** ** Rejections *)

(** X3. Whatever a resolver is called with, if it rejects then the error
    is the "Not authenticated!" error of the gate or the "Invalid input."
    error of validation with a non-empty list of field errors, and the
    world is untouched. Every other failure (unknown user or post, wrong
    password, foreign post, database error) is caught inside the resolver
    and never reaches the caller as a rejection; [login] never rejects at
    all. *)
Theorem rejections_are_gate_or_validation
        (L : Libs) (req : Request) (w w' : World) (e : JsError) :
  (forall userInput,
      resolvers.createUser L userInput req w = (Throw e, w') ->
      gate_or_validation e /\ w' = w)
  /\ (forall email password,
         resolvers.login L email password w <> (Throw e, w'))
  /\ (forall postInput,
         resolvers.createPost L postInput req w = (Throw e, w') ->
         gate_or_validation e /\ w' = w)
  /\ (forall page,
         resolvers.posts L page req w = (Throw e, w') ->
         e = not_authenticated /\ w' = w)
  /\ (forall id,
         resolvers.post L id req w = (Throw e, w') ->
         e = not_authenticated /\ w' = w)
  /\ (forall id postInput,
         resolvers.updatePost L id postInput req w = (Throw e, w') ->
         e = not_authenticated /\ w' = w)
  /\ (forall id,
         resolvers.deletePost id req w = (Throw e, w') ->
         e = not_authenticated /\ w' = w)
  /\ (resolvers.user req w = (Throw e, w') ->
      e = not_authenticated /\ w' = w)
  /\ (forall status,
         resolvers.updateStatus status req w = (Throw e, w') ->
         e = not_authenticated /\ w' = w).
Proof.
  assert (Hgate : forall A (body : M (option A)),
             (forall w0, body w0 <> (Throw e, w')) ->
             (if negb (isAuth req)
              then throw (set_code 401 (new_Error "Not authenticated!"))
              else body) w = (Throw e, w') ->
             e = not_authenticated /\ w' = w).
  { intros A body Hbody. destruct (isAuth req); simpl.
    - intros H. now apply Hbody in H.
    - unfold throw. intros H. injection H as <- <-. split; reflexivity. }
  split; [|split; [|split; [|split; [|split; [|split; [|split; [|split]]]]]]].
  - intros userInput H. unfold resolvers.createUser in H.
    destruct (Nat.ltb 0 (length (resolvers.user_input_errors L userInput)))
      eqn:El.
    + unfold throw in H. injection H as <- <-. split; [|reflexivity].
      right. exists (resolvers.user_input_errors L userInput).
      split; [now apply ltb_length_nonempty | reflexivity].
    + now apply try_log_resolves in H.
  - intros email password. apply try_log_resolves.
  - intros postInput H. unfold resolvers.createPost in H.
    destruct (isAuth req); simpl in H.
    + destruct (Nat.ltb 0 (length (resolvers.post_input_errors postInput)))
        eqn:El.
      * unfold throw in H. injection H as <- <-. split; [|reflexivity].
        right. exists (resolvers.post_input_errors postInput).
        split; [now apply ltb_length_nonempty | reflexivity].
      * now apply try_log_resolves in H.
    + unfold throw in H. injection H as <- <-. split; [now left|reflexivity].
  - intros page H. eapply Hgate; [|exact H].
    intros w0. apply try_log_resolves.
  - intros id H. eapply Hgate; [|exact H].
    intros w0. apply try_log_resolves.
  - intros id postInput H. eapply Hgate; [|exact H].
    intros w0. apply try_log_resolves.
  - intros id H. eapply Hgate; [|exact H].
    intros w0. apply try_log_resolves.
  - intros H. eapply Hgate; [|exact H].
    intros w0. apply try_log_resolves.
  - intros status H. eapply Hgate; [|exact H].
    intros w0. apply try_log_resolves.
Qed.

Lemma rejections_are_gate_or_validation_witness :
  gate_or_validation (invalid_input [mkFieldError "Title is invalid."])
  /\ Sample.world = Sample.world.
Proof.
  destruct (rejections_are_gate_or_validation Sample.libs Sample.as_ann
              Sample.world Sample.world
              (invalid_input [mkFieldError "Title is invalid."]))
    as (_ & _ & Hpost & _).
  exact (Hpost (mkPostInput "Hi" "Hello World" "images/z.png") eq_refl).
Defined.

(** ** Signing up *)

Lemma upsert_emails_NoDup (u : UserDoc) (us : list UserDoc) :
  User.by_email (u_email u) us = None ->
  NoDup (map u_email us) -> NoDup (map u_email (User.upsert u us)).
Proof.
  induction us as [|v rest IH]; simpl; intros Hnone Hnd.
  - constructor; [intros [] | constructor].
  - unfold User.by_email in Hnone. simpl in Hnone.
    destruct (String.eqb (u_email v) (u_email u)) eqn:Ev; [discriminate|].
    fold (User.by_email (u_email u) rest) in Hnone.
    apply String.eqb_neq in Ev.
    inversion Hnd as [|? ? Hnotin Hrest]; subst.
    destruct (String.eqb (u_id v) (u_id u)); simpl.
    + constructor; [now apply by_email_none | exact Hrest].
    + constructor; [|now apply IH].
      intros Hin. apply in_map_iff in Hin. destruct Hin as (x & Hx & Hin).
      destruct (upsert_In_inv _ _ _ Hin) as [->|Hin']; [congruence|].
      apply Hnotin. rewrite <- Hx. now apply in_map.
Qed.

(** What [createUser] does for valid input and an email no stored user
    has. *)
Lemma createUser_run (L : Libs) (userInput : UserInputData) (req : Request)
      (w : World) :
  User.by_email (ui_email userInput) (db_users w) = None ->
  resolvers.user_input_errors L userInput = [] ->
  let created :=
    mkUser (oid_of_nat (next_oid w)) (ui_email userInput) (ui_name userInput)
           (bcrypt_hash L (ui_password userInput) 12) (default_status L) [] in
  exists w',
    resolvers.createUser L userInput req w
    = (Ok (Some (resolvers.user_data created)), w')
    /\ db_users w' = User.upsert created (db_users w)
    /\ db_posts w' = db_posts w
    /\ unlinked w' = unlinked w
    /\ console w' = console w.
Proof.
  intros Hnone Hvalid created.
  unfold resolvers.createUser, resolvers.createUser_try, try_log, bind,
    User.findOne, User.create, User.save, ret, throw.
  rewrite Hvalid. simpl. rewrite Hnone. simpl.
  eexists. split; [reflexivity|]. repeat split.
Qed.



(** X5. Signing up and then logging in: after a [createUser] with valid
    input and a new email, [login] with the same email and password issues
    a token for the user just created, provided [bcrypt.compare] accepts a
    password against its own hash; with a password it refuses, no token is
    issued. *)
Theorem signup_then_login
        (L : Libs) (userInput : UserInputData) (req : Request) (w : World) :
  User.by_email (ui_email userInput) (db_users w) = None ->
  resolvers.user_input_errors L userInput = [] ->
  let hashed := bcrypt_hash L (ui_password userInput) 12 in
  let w1 := snd (resolvers.createUser L userInput req w) in
  let id := toString (oid_of_nat (next_oid w)) in
  (bcrypt_compare L (ui_password userInput) hashed = true ->
   fst (resolvers.login L (ui_email userInput) (ui_password userInput) w1)
   = Ok (Some (mkAuthData
                 (jwt_sign L id (ui_email userInput) (JWT_SECRET L) "1h") id)))
  /\ (forall other,
         bcrypt_compare L other hashed = false ->
         fst (resolvers.login L (ui_email userInput) other w1) = Ok None).
Proof.
  intros Hnone Hvalid hashed w1 id.
  destruct (createUser_run L userInput req w Hnone Hvalid)
    as (w' & Hrun & Husers & _).
  assert (Hfound : User.by_email (ui_email userInput) (db_users w1)
                   = Some (mkUser (oid_of_nat (next_oid w))
                                  (ui_email userInput) (ui_name userInput)
                                  hashed (default_status L) [])).
  { subst w1. rewrite Hrun. simpl. rewrite Husers.
    apply (by_email_upsert
             (mkUser (oid_of_nat (next_oid w)) (ui_email userInput)
                     (ui_name userInput) hashed (default_status L) [])).
    exact Hnone. }
  unfold resolvers.login, resolvers.login_try, try_log, bind, User.findOne,
    ret, throw.
  rewrite Hfound. simpl. fold hashed. split.
  - intros Hcmp. rewrite Hcmp. reflexivity.
  - intros other Hcmp. rewrite Hcmp. reflexivity.
Qed.

Lemma signup_then_login_witness :
  fst (resolvers.login Sample.libs "cy@example.com" "lupin-99"
         (snd (resolvers.createUser Sample.libs
                 (mkUserInput "cy@example.com" "Cy" "lupin-99")
                 Sample.anonymous Sample.world)))
  = Ok (Some (mkAuthData "oid-10.cy@example.com.1h" "oid-10")).
Proof.
  exact (proj1 (signup_then_login Sample.libs
                  (mkUserInput "cy@example.com" "Cy" "lupin-99")
                  Sample.anonymous Sample.world eq_refl eq_refl) eq_refl).
Defined.

(** X6. [createUser] keeps the stored emails pairwise distinct: if no two
    stored users share an email before the call, none do after it,
    whatever the input and the outcome. *)
Theorem createUser_keeps_emails_distinct
        (L : Libs) (userInput : UserInputData) (req : Request) (w : World) :
  NoDup (emails w) ->
  NoDup (emails (snd (resolvers.createUser L userInput req w))).
Proof.
  intros Hnd.
  destruct (resolvers.user_input_errors L userInput) as [|fe rest] eqn:Hv.
  - destruct (User.by_email (ui_email userInput) (db_users w)) as [u|]
      eqn:Hfind.
    + unfold resolvers.createUser, resolvers.createUser_try, try_log, bind,
        User.findOne, throw.
      rewrite Hv. simpl. rewrite Hfind. exact Hnd.
    + destruct (createUser_run L userInput req w Hfind Hv)
        as (w' & Hrun & Husers & _).
      rewrite Hrun. unfold emails. simpl. rewrite Husers.
      apply upsert_emails_NoDup; [exact Hfind | exact Hnd].
  - unfold resolvers.createUser. rewrite Hv. exact Hnd.
Qed.

Lemma createUser_keeps_emails_distinct_witness :
  NoDup (emails (snd (resolvers.createUser Sample.libs
                        (mkUserInput "cy@example.com" "Cy" "lupin-99")
                        Sample.anonymous Sample.world))).
Proof.
  apply (createUser_keeps_emails_distinct Sample.libs).
  unfold emails. simpl.
  constructor; [intros [H|[]]; discriminate H|].
  constructor; [intros []|]. constructor.
Defined.

(** X7. [createPost], [updatePost], [deletePost] and [updateStatus] never
    add or remove a user and never change a user's id, email, name or
    password hash, whatever their arguments and outcome. *)
Theorem writers_keep_credentials (L : Libs) (req : Request) (w : World) :
  (forall postInput,
      map credentials (db_users (snd (resolvers.createPost L postInput req w)))
      = map credentials (db_users w))
  /\ (forall id postInput,
         map credentials
             (db_users (snd (resolvers.updatePost L id postInput req w)))
         = map credentials (db_users w))
  /\ (forall id,
         map credentials (db_users (snd (resolvers.deletePost id req w)))
         = map credentials (db_users w))
  /\ (forall status,
         map credentials (db_users (snd (resolvers.updateStatus status req w)))
         = map credentials (db_users w)).
Proof.
  split; [|split; [|split]].
  - intros postInput.
    unfold resolvers.createPost, resolvers.createPost_try, try_log, bind,
      User.findById, Post.create_save, User.save, ret, throw.
    destruct (isAuth req); simpl; [|reflexivity].
    destruct (Nat.ltb 0 (length (resolvers.post_input_errors postInput)));
      [reflexivity|].
    simpl.
    destruct (User.lookup (userId req) (db_users w)) as [u|] eqn:Hu; simpl;
      [|reflexivity].
    now apply (upsert_credentials (userId req) u).
  - intros id postInput.
    unfold resolvers.updatePost, resolvers.updatePost_try, try_log, bind,
      Post.findById, Post.populate, Post.save, ret, throw.
    destruct (isAuth req); simpl; [|reflexivity].
    destruct (Post.lookup id (db_posts w)) as [p|]; simpl; [|reflexivity].
    destruct (User.lookup (toString (p_creator p)) (db_users w)) as [c|];
      simpl; [|reflexivity].
    destruct (String.eqb (toString (u_id c)) (userId req)); simpl;
      [|reflexivity].
    destruct (Nat.ltb 0 (length (resolvers.post_input_errors postInput)));
      reflexivity.
  - intros id.
    unfold resolvers.deletePost, resolvers.deletePost_try, try_log, bind,
      Post.findById, Post.findByIdAndRemove, clearImage, User.findById,
      User.save, ret, throw.
    destruct (isAuth req); simpl; [|reflexivity].
    destruct (Post.lookup id (db_posts w)) as [p|]; simpl; [|reflexivity].
    destruct (String.eqb (toString (p_creator p)) (userId req)); simpl;
      [|reflexivity].
    destruct (User.lookup (userId req) (db_users w)) as [u|] eqn:Hu; simpl;
      [|reflexivity].
    now apply (upsert_credentials (userId req) u).
  - intros status.
    unfold resolvers.updateStatus, resolvers.updateStatus_try, try_log, bind,
      User.findById, User.save, ret, throw.
    destruct (isAuth req); simpl; [|reflexivity].
    destruct (User.lookup (userId req) (db_users w)) as [u|] eqn:Hu; simpl;
      [|reflexivity].
    now apply (upsert_credentials (userId req) u).
Qed.

(** ** Creating and reading posts *)

(** What [createPost] does for an authenticated request of a stored user
    with valid input. *)
Lemma createPost_run (L : Libs) (postInput : PostInputData) (req : Request)
      (w : World) (u : UserDoc) :
  isAuth req = true ->
  resolvers.post_input_errors postInput = [] ->
  User.lookup (userId req) (db_users w) = Some u ->
  let created :=
    mkPost (oid_of_nat (next_oid w)) (pi_title postInput)
           (pi_content postInput) (pi_imageUrl postInput) (u_id u)
           (now w) (now w) in
  let pushed := User.push (p_id created) u in
  exists w',
    resolvers.createPost L postInput req w
    = (Ok (Some (resolvers.post_data L (Populated (Some pushed)) created)), w')
    /\ db_posts w' = db_posts w ++ [created]
    /\ db_users w' = User.upsert pushed (db_users w)
    /\ unlinked w' = unlinked w.
Proof.
  intros Hflag Hvalid Hu created pushed.
  unfold resolvers.createPost, resolvers.createPost_try, try_log, bind,
    User.findById, Post.create_save, User.save, ret, throw.
  rewrite Hflag, Hvalid. simpl. rewrite Hu. simpl.
  eexists. split; [reflexivity|]. repeat split.
Qed.

(** X8. After a successful [createPost] the creator's stored post list is
    the old list followed by the new post's id, and the new post names
    that user as its creator; if the id was not in the list before, it is
    in it exactly once. *)
Theorem createPost_links_post_to_creator
        (L : Libs) (postInput : PostInputData) (req : Request) (w : World)
        (u : UserDoc) :
  isAuth req = true ->
  resolvers.post_input_errors postInput = [] ->
  User.lookup (userId req) (db_users w) = Some u ->
  let w' := snd (resolvers.createPost L postInput req w) in
  let id := oid_of_nat (next_oid w) in
  exists created after,
    db_posts w' = db_posts w ++ [created]
    /\ p_id created = id
    /\ toString (p_creator created) = userId req
    /\ User.lookup (userId req) (db_users w') = Some after
    /\ u_posts after = u_posts u ++ [id]
    /\ (~ In id (u_posts u) ->
        count_occ string_dec (u_posts after) id = 1).
Proof.
  intros Hflag Hvalid Hu w' id.
  destruct (createPost_run L postInput req w u Hflag Hvalid Hu)
    as (w1 & Hrun & Hposts & Husers & _).
  subst w'. rewrite Hrun. cbn [snd].
  eexists. eexists. split; [exact Hposts|].
  split; [reflexivity|]. split; [now apply user_lookup_id in Hu|].
  split; [rewrite Husers; now apply (user_lookup_upsert _ u)|].
  split; [reflexivity|].
  intros Hnotin. cbn [u_posts User.push p_id]. fold id.
  rewrite count_occ_app.
  apply (count_occ_not_In string_dec) in Hnotin.
  unfold ObjectId in *. rewrite Hnotin.
  cbn [count_occ plus]. destruct (string_dec id id); [reflexivity | congruence].
Qed.

Lemma createPost_links_post_to_creator_witness :
  exists after,
    User.lookup "u1"
      (db_users (snd (resolvers.createPost Sample.libs
                        (mkPostInput "Hello World" "Hello World"
                                     "images/z.png")
                        Sample.as_ann Sample.world)))
    = Some after
    /\ u_posts after = ["p1"; "p3"; "oid-10"].
Proof.
  destruct (createPost_links_post_to_creator Sample.libs
              (mkPostInput "Hello World" "Hello World" "images/z.png")
              Sample.as_ann Sample.world Sample.ann eq_refl eq_refl eq_refl)
    as (created & after & _ & _ & _ & Hlookup & Hlist & _).
  exists after. split; [exact Hlookup | exact Hlist].
Defined.

(** What [post] returns for a stored id. *)
Lemma post_found (L : Libs) (id : string) (req : Request) (w : World)
      (p : PostDoc) :
  isAuth req = true ->
  Post.lookup id (db_posts w) = Some p ->
  fst (resolvers.post L id req w) = Ok (Some (populated_post_data L w p)).
Proof.
  intros Hflag Hp.
  unfold resolvers.post, resolvers.post_try, try_log, bind, Post.findById,
    Post.populate, ret, throw, populated_post_data.
  rewrite Hflag. simpl. rewrite Hp. reflexivity.
Qed.

(** X9. A post can be read back: after a successful [createPost], when the
    new id was not already taken, [post] with the returned id gives any
    authenticated caller exactly the record [createPost] returned. *)
Theorem createPost_then_post
        (L : Libs) (postInput : PostInputData) (req reader : Request)
        (w : World) (u : UserDoc) :
  isAuth req = true ->
  resolvers.post_input_errors postInput = [] ->
  User.lookup (userId req) (db_users w) = Some u ->
  Post.lookup (oid_of_nat (next_oid w)) (db_posts w) = None ->
  isAuth reader = true ->
  exists data w',
    resolvers.createPost L postInput req w = (Ok (Some data), w')
    /\ pd_title data = pi_title postInput
    /\ pd_content data = pi_content postInput
    /\ pd_imageUrl data = pi_imageUrl postInput
    /\ fst (resolvers.post L (pd_id data) reader w') = Ok (Some data).
Proof.
  intros Hflag Hvalid Hu Hfresh Hreader.
  destruct (createPost_run L postInput req w u Hflag Hvalid Hu)
    as (w1 & Hrun & Hposts & Husers & _).
  set (created := mkPost (oid_of_nat (next_oid w)) (pi_title postInput)
                         (pi_content postInput) (pi_imageUrl postInput)
                         (u_id u) (now w) (now w)) in *.
  set (pushed := User.push (p_id created) u) in *.
  exists (resolvers.post_data L (Populated (Some pushed)) created), w1.
  split; [exact Hrun|].
  split; [reflexivity|]. split; [reflexivity|]. split; [reflexivity|].
  assert (Hstored : Post.lookup (oid_of_nat (next_oid w)) (db_posts w1)
                    = Some created).
  { rewrite Hposts. now apply post_lookup_app_new. }
  change (pd_id (resolvers.post_data L (Populated (Some pushed)) created))
    with (oid_of_nat (next_oid w)).
  rewrite (post_found L _ reader w1 created Hreader Hstored).
  unfold populated_post_data. rewrite Husers.
  change (toString (p_creator created)) with (u_id u).
  pose proof (user_lookup_id _ _ _ Hu) as Hid. unfold toString in Hid.
  rewrite Hid.
  rewrite (user_lookup_upsert (userId req) u pushed (db_users w) Hu eq_refl).
  reflexivity.
Qed.

Lemma createPost_then_post_witness :
  exists data w',
    resolvers.createPost Sample.libs
      (mkPostInput "Hello World" "Hello World" "images/z.png")
      Sample.as_ann Sample.world = (Ok (Some data), w')
    /\ fst (resolvers.post Sample.libs (pd_id data) Sample.as_bob w')
       = Ok (Some data).
Proof.
  destruct (createPost_then_post Sample.libs
              (mkPostInput "Hello World" "Hello World" "images/z.png")
              Sample.as_ann Sample.as_bob Sample.world Sample.ann
              eq_refl eq_refl eq_refl eq_refl eq_refl)
    as (data & w' & Hrun & _ & _ & _ & Hread).
  exists data, w'. split; [exact Hrun | exact Hread].
Defined.

(** X10. [post] returns a record exactly for a stored id: for an
    authenticated caller it returns the stored title, content, image path
    and timestamps of the first post with that id, with the creator
    populated; for an id no stored post has it resolves with [undefined]
    after printing the "Post not found." error with code 404. *)
Theorem post_reads_stored_post
        (L : Libs) (id : string) (req : Request) (w : World) :
  isAuth req = true ->
  (forall p,
      Post.lookup id (db_posts w) = Some p ->
      fst (resolvers.post L id req w) = Ok (Some (populated_post_data L w p)))
  /\ (Post.lookup id (db_posts w) = None ->
      fst (resolvers.post L id req w) = Ok None
      /\ console (snd (resolvers.post L id req w))
         = console w ++ [set_code 404 (new_Error "Post not found.")]).
Proof.
  intros Hflag.
  unfold resolvers.post, resolvers.post_try, try_log, bind, Post.findById,
    Post.populate, ret, throw, populated_post_data.
  rewrite Hflag. simpl. split.
  - intros p Hp. rewrite Hp. reflexivity.
  - intros Hnone. rewrite Hnone. simpl. split; reflexivity.
Qed.

Lemma post_reads_stored_post_witness :
  fst (resolvers.post Sample.libs "p2" Sample.as_ann Sample.world)
  = Ok (Some (populated_post_data Sample.libs Sample.world Sample.p2))
  /\ fst (resolvers.post Sample.libs "p9" Sample.as_ann Sample.world)
     = Ok None.
Proof.
  destruct (post_reads_stored_post Sample.libs "p2" Sample.as_ann
              Sample.world eq_refl) as [Hfound _].
  destruct (post_reads_stored_post Sample.libs "p9" Sample.as_ann
              Sample.world eq_refl) as [_ Hmissing].
  split; [exact (Hfound Sample.p2 eq_refl) | exact (proj1 (Hmissing eq_refl))].
Defined.



(** ** Updating and deleting posts *)

(** X12. [updatePost] by the owner with valid input succeeds: the stored
    post keeps its id, creator and creation time, takes the new title and
    content, and gets the clock as its update time; every post with
    another id is found as before, no post is added or removed, and the
    users and image files are untouched. *)
Theorem updatePost_by_owner
        (L : Libs) (id : string) (postInput : PostInputData) (req : Request)
        (w : World) (before : PostDoc) (owner : UserDoc) :
  isAuth req = true ->
  Post.lookup id (db_posts w) = Some before ->
  User.lookup (toString (p_creator before)) (db_users w) = Some owner ->
  toString (p_creator before) = userId req ->
  resolvers.post_input_errors postInput = [] ->
  exists data w' after,
    resolvers.updatePost L id postInput req w = (Ok (Some data), w')
    /\ Post.lookup id (db_posts w') = Some after
    /\ p_id after = p_id before
    /\ p_creator after = p_creator before
    /\ p_createdAt after = p_createdAt before
    /\ p_updatedAt after = now w
    /\ p_title after = pi_title postInput
    /\ p_content after = pi_content postInput
    /\ pd_title data = pi_title postInput
    /\ pd_content data = pi_content postInput
    /\ (forall other,
           other <> id ->
           Post.lookup other (db_posts w') = Post.lookup other (db_posts w))
    /\ length (db_posts w') = length (db_posts w)
    /\ db_users w' = db_users w
    /\ unlinked w' = unlinked w.
Proof.
  intros Hflag Hpost Howner Hmine Hvalid.
  pose proof (user_lookup_id _ _ _ Howner) as Hid.
  pose proof (post_lookup_id _ _ _ Hpost) as Hpid. unfold toString in Hpid.
  unfold resolvers.updatePost, resolvers.updatePost_try, try_log, bind,
    Post.findById, Post.populate, Post.save, ret, throw.
  rewrite Hflag. simpl. rewrite Hpost. simpl. rewrite Howner.
  assert (Heq : String.eqb (toString (u_id owner)) (userId req) = true)
    by (apply String.eqb_eq; congruence).
  rewrite Heq, Hvalid. simpl.
  do 3 eexists. split; [reflexivity|]. simpl.
  split; [apply (post_lookup_replace id _ before); [exact Hpost|reflexivity]|].
  repeat (split; [reflexivity|]).
  split.
  - intros other Hother. apply post_lookup_replace_other. simpl. congruence.
  - split; [apply length_map|]. split; reflexivity.
Qed.

Lemma updatePost_by_owner_witness :
  exists data w' after,
    resolvers.updatePost Sample.libs "p1"
      (mkPostInput "Hello World" "Hello World" "images/n.png")
      Sample.as_ann Sample.world = (Ok (Some data), w')
    /\ Post.lookup "p1" (db_posts w') = Some after
    /\ p_title after = "Hello World"
    /\ Post.lookup "p2" (db_posts w') = Some Sample.p2.
Proof.
  destruct (updatePost_by_owner Sample.libs "p1"
              (mkPostInput "Hello World" "Hello World" "images/n.png")
              Sample.as_ann Sample.world Sample.p1 Sample.ann
              eq_refl eq_refl eq_refl eq_refl eq_refl)
    as (data & w' & after & Hrun & Hfound & _ & _ & _ & _ & Htitle & _ & _
        & _ & Hothers & _).
  exists data, w', after. split; [exact Hrun|]. split; [exact Hfound|].
  split; [exact Htitle|]. rewrite Hothers; [reflexivity | discriminate].
Defined.

(** X13. [deletePost] by the creator, when the creator's user document is
    stored, returns [true]: no post with that id is found any more, the
    post's image path is handed to [clearImage], the id is no longer in
    the creator's post list, and every post with another id is found as
    before. *)
Theorem deletePost_by_owner
        (id : string) (req : Request) (w : World) (target : PostDoc)
        (u : UserDoc) :
  isAuth req = true ->
  Post.lookup id (db_posts w) = Some target ->
  toString (p_creator target) = userId req ->
  User.lookup (userId req) (db_users w) = Some u ->
  exists w' after,
    resolvers.deletePost id req w = (Ok (Some true), w')
    /\ Post.lookup id (db_posts w') = None
    /\ unlinked w' = unlinked w ++ [p_imageUrl target]
    /\ User.lookup (userId req) (db_users w') = Some after
    /\ ~ In id (u_posts after)
    /\ (forall other, other <> id -> In other (u_posts u) ->
                      In other (u_posts after))
    /\ (forall other,
           other <> id ->
           Post.lookup other (db_posts w') = Post.lookup other (db_posts w)).
Proof.
  intros Hflag Hpost Hmine Hu.
  unfold resolvers.deletePost, resolvers.deletePost_try, try_log, bind,
    Post.findById, Post.findByIdAndRemove, clearImage, User.findById,
    User.save, ret, throw.
  rewrite Hflag. simpl. rewrite Hpost.
  assert (Heq : String.eqb (toString (p_creator target)) (userId req) = true)
    by (now apply String.eqb_eq).
  rewrite Heq. simpl. rewrite Hu. simpl.
  do 2 eexists. split; [reflexivity|]. simpl.
  split; [apply post_lookup_removed|]. split; [reflexivity|].
  split; [now apply (user_lookup_upsert _ u)|].
  split; [|split].
  - simpl. intros Hin. apply filter_In in Hin. destruct Hin as [_ Hin].
    unfold toString in Hin. now rewrite String.eqb_refl in Hin.
  - simpl. intros other Hother Hin. apply filter_In. split; [exact Hin|].
    apply negb_true_iff, String.eqb_neq. exact Hother.
  - intros other Hother. now apply post_lookup_removed_other.
Qed.

Lemma deletePost_by_owner_witness :
  exists w' after,
    resolvers.deletePost "p1" Sample.as_ann Sample.world = (Ok (Some true), w')
    /\ Post.lookup "p1" (db_posts w') = None
    /\ unlinked w' = ["images/a.png"]
    /\ User.lookup "u1" (db_users w') = Some after
    /\ In "p3" (u_posts after).
Proof.
  destruct (deletePost_by_owner "p1" Sample.as_ann Sample.world Sample.p1
              Sample.ann eq_refl eq_refl eq_refl eq_refl)
    as (w' & after & Hrun & Hgone & Hfile & Huser & _ & Hkept & _).
  exists w', after. split; [exact Hrun|]. split; [exact Hgone|].
  split; [exact Hfile|]. split; [exact Huser|].
  apply Hkept; [discriminate | simpl; auto].
Defined.

(** X14. [deletePost] is not atomic: when the request's user id equals the
    post's creator reference but no user document with that id is stored,
    the image is cleared and the post is removed before the missing user
    is noticed, and the caller gets [undefined] instead of [true]. *)
Theorem deletePost_without_user_document
        (id : string) (req : Request) (w : World) (target : PostDoc) :
  isAuth req = true ->
  Post.lookup id (db_posts w) = Some target ->
  toString (p_creator target) = userId req ->
  User.lookup (userId req) (db_users w) = None ->
  exists w',
    resolvers.deletePost id req w = (Ok None, w')
    /\ Post.lookup id (db_posts w') = None
    /\ unlinked w' = unlinked w ++ [p_imageUrl target]
    /\ db_users w' = db_users w.
Proof.
  intros Hflag Hpost Hmine Hu.
  unfold resolvers.deletePost, resolvers.deletePost_try, try_log, bind,
    Post.findById, Post.findByIdAndRemove, clearImage, User.findById,
    User.save, ret, throw.
  rewrite Hflag. simpl. rewrite Hpost.
  assert (Heq : String.eqb (toString (p_creator target)) (userId req) = true)
    by (now apply String.eqb_eq).
  rewrite Heq. simpl. rewrite Hu. simpl.
  eexists. split; [reflexivity|]. simpl.
  split; [apply post_lookup_removed|]. split; reflexivity.
Qed.

Lemma deletePost_without_user_document_witness :
  exists w',
    resolvers.deletePost "p1" Sample.as_ann
      (with_users [Sample.bob] Sample.world) = (Ok None, w')
    /\ Post.lookup "p1" (db_posts w') = None.
Proof.
  destruct (deletePost_without_user_document "p1" Sample.as_ann
              (with_users [Sample.bob] Sample.world) Sample.p1
              eq_refl eq_refl eq_refl eq_refl)
    as (w' & Hrun & Hgone & _).
  exists w'. split; [exact Hrun | exact Hgone].
Defined.

(** ** The user's status *)

(** X15. [updateStatus] for a stored user stores the new status and
    nothing else: the returned record and the stored document carry the
    new status with the id, email, name, password hash and post list
    unchanged; a following [user] query returns the same record; users
    with another id are found as before and the posts are untouched. *)
Theorem updateStatus_then_user
        (status : string) (req : Request) (w : World) (u : UserDoc) :
  isAuth req = true ->
  User.lookup (userId req) (db_users w) = Some u ->
  let updated := User.set_status status u in
  exists w',
    resolvers.updateStatus status req w
    = (Ok (Some (resolvers.user_data updated)), w')
    /\ User.lookup (userId req) (db_users w') = Some updated
    /\ fst (resolvers.user req w') = Ok (Some (resolvers.user_data updated))
    /\ ud_status (resolvers.user_data updated) = status
    /\ credentials updated = credentials u
    /\ u_posts updated = u_posts u
    /\ (forall other,
           other <> userId req ->
           User.lookup other (db_users w') = User.lookup other (db_users w))
    /\ db_posts w' = db_posts w.
Proof.
  intros Hflag Hu updated.
  pose proof (user_lookup_id _ _ _ Hu) as Hid. unfold toString in Hid.
  assert (Hstored : User.lookup (userId req)
                      (User.upsert updated (db_users w)) = Some updated)
    by (now apply (user_lookup_upsert _ u)).
  unfold resolvers.updateStatus, resolvers.updateStatus_try,
    resolvers.user, resolvers.user_try, try_log, bind,
    User.findById, User.save, ret, throw.
  rewrite Hflag. simpl. rewrite Hu. simpl.
  eexists. split; [reflexivity|]. simpl.
  split; [exact Hstored|]. fold updated. rewrite Hstored. simpl.
  repeat (split; [reflexivity|]).
  split; [|reflexivity].
  intros other Hother. apply user_lookup_upsert_other. simpl. congruence.
Qed.

Lemma updateStatus_then_user_witness :
  exists w',
    resolvers.updateStatus "Busy" Sample.as_bob Sample.world
    = (Ok (Some (resolvers.user_data (User.set_status "Busy" Sample.bob))),
       w')
    /\ fst (resolvers.user Sample.as_bob w')
       = Ok (Some (resolvers.user_data (User.set_status "Busy" Sample.bob))).
Proof.
  destruct (updateStatus_then_user "Busy" Sample.as_bob Sample.world
              Sample.bob eq_refl eq_refl) as (w' & Hrun & _ & Hread & _).
  exists w'. split; [exact Hrun | exact Hread].
Defined.

(** ** Paging through the posts *)



(** The page an authenticated [posts] query returns for page number
    [k + 1]. *)
Lemma posts_run (L : Libs) (k : nat) (req : Request) (w : World) :
  isAuth req = true ->
  fst (resolvers.posts L (Some (Z.of_nat (S k))) req w)
  = Ok (Some (mkPostsData
                (map (populated_post_data L w)
                     (firstn 2 (skipn (2 * k) (Post.sort_desc (db_posts w)))))
                (length (db_posts w)))).
Proof.
  intros Hflag.
  unfold resolvers.posts, resolvers.posts_try, try_log, bind,
    Post.countDocuments, Post.find_page, Post.populate_all, ret.
  rewrite Hflag. simpl negb. cbv iota.
  assert (Hpage : page_is_falsy (Some (Z.of_nat (S k))) = false).
  { unfold page_is_falsy. apply Z.eqb_neq. lia. }
  rewrite Hpage.
  assert (Hskip : ((Z.of_nat (S k) - 1) * Z.of_nat 2 = Z.of_nat (2 * k))%Z)
    by lia.
  rewrite Hskip.
  cbn -[firstn skipn Post.sort_desc Z.ltb Z.of_nat Z.to_nat Nat.mul].
  assert (Hlt : (Z.of_nat (2 * k) <? 0)%Z = false) by (apply Z.ltb_ge; lia).
  rewrite Hlt. rewrite Nat2Z.id.
  cbn -[firstn skipn Post.sort_desc Nat.mul].
  rewrite map_map. reflexivity.
Qed.





Lemma insert_desc_length (p : PostDoc) (l : list PostDoc) :
  length (Post.insert_desc p l) = S (length l).
Proof.
  induction l as [|q rest IH]; simpl; [reflexivity|].
  destruct (p_createdAt q <=? p_createdAt p)%Z; simpl; [reflexivity|].
  now rewrite IH.
Qed.

Lemma sort_desc_length (l : list PostDoc) :
  length (Post.sort_desc l) = length l.
Proof.
  induction l as [|p rest IH]; simpl; [reflexivity|].
  now rewrite insert_desc_length, IH.
Qed.

(** X18. The size of a page follows from the count it reports: page
    [k + 1] holds [min 2 (totalPosts - 2k)] posts, so every page before
    the last is full and a page past the end is empty, still with the
    full count. *)
Theorem posts_page_size
        (L : Libs) (k : nat) (req : Request) (w : World) :
  isAuth req = true ->
  exists data,
    fst (resolvers.posts L (Some (Z.of_nat (S k))) req w) = Ok (Some data)
    /\ psd_totalPosts data = length (db_posts w)
    /\ length (psd_posts data) = Nat.min 2 (psd_totalPosts data - 2 * k).
Proof.
  intros Hflag. eexists. split; [now apply posts_run|].
  cbn [psd_posts psd_totalPosts]. split; [reflexivity|].
  now rewrite length_map, length_firstn, length_skipn, sort_desc_length.
Qed.

Lemma posts_page_size_witness :
  exists data,
    fst (resolvers.posts Sample.libs (Some 2%Z) Sample.as_ann Sample.world)
    = Ok (Some data)
    /\ psd_totalPosts data = 3
    /\ length (psd_posts data) = 1.
Proof.
  destruct (posts_page_size Sample.libs 1 Sample.as_ann Sample.world eq_refl)
    as (data & Hrun & Htotal & Hsize).
  exists data. split; [exact Hrun|]. split; [exact Htotal|].
  rewrite Hsize, Htotal. reflexivity.
Defined.

(** ** Uploading an image *)






(** ** Validation of a sign-up and of an update *)

(** X20. [createUser] rejects with the "Invalid input." error, code 422,
    exactly when [isEmail] refuses the email or the password has fewer
    than 5 characters; the error then lists "Invalid email." for a refused
    email and "Password too short." for a short password, and nothing is
    looked up or stored. With an accepted email and a password of at least
    5 characters the call is never rejected. *)
Theorem createUser_validation
        (L : Libs) (userInput : UserInputData) (req : Request) (w : World) :
  let errors := resolvers.user_input_errors L userInput in
  (isEmail L (ui_email userInput) = false
   \/ String.length (ui_password userInput) < 5 ->
   resolvers.createUser L userInput req w = (Throw (invalid_input errors), w)
   /\ (isEmail L (ui_email userInput) = false ->
       In (mkFieldError "Invalid email.") errors)
   /\ (String.length (ui_password userInput) < 5 ->
       In (mkFieldError "Password too short.") errors))
  /\ (isEmail L (ui_email userInput) = true ->
      5 <= String.length (ui_password userInput) ->
      errors = []
      /\ forall e w', resolvers.createUser L userInput req w <> (Throw e, w')).
Proof.
  intros errors. subst errors.
  unfold resolvers.createUser, resolvers.user_input_errors.
  destruct (isEmail L (ui_email userInput)) eqn:Eemail;
    destruct (validator.isEmpty (ui_password userInput)
              || negb (validator.isLength (ui_password userInput) 5))
      eqn:Epw; simpl.
  - split.
    + intros _. split; [reflexivity|]. split; [discriminate|]. auto.
    + intros _ Hlen. apply field_check in Hlen. congruence.
  - apply field_check in Epw. split.
    + intros [H|H]; [discriminate | lia].
    + intros _ _. split; [reflexivity|]. intros e w'.
      apply try_log_resolves.
  - split.
    + intros _. split; [reflexivity|]. split; auto.
    + discriminate.
  - apply field_check in Epw. split.
    + intros _. split; [reflexivity|]. split; [auto | lia].
    + discriminate.
Qed.

Lemma createUser_validation_witness :
  resolvers.createUser Sample.libs (mkUserInput "cy.example.com" "Cy" "abc")
    Sample.anonymous Sample.world
  = (Throw (invalid_input [mkFieldError "Invalid email.";
                           mkFieldError "Password too short."]),
     Sample.world)
  /\ forall e w',
      resolvers.createUser Sample.libs
        (mkUserInput "cy@example.com" "Cy" "lupin-99") Sample.anonymous
        Sample.world <> (Throw e, w').
Proof.
  split.
  - refine (proj1 (proj1 (createUser_validation Sample.libs
                            (mkUserInput "cy.example.com" "Cy" "abc")
                            Sample.anonymous Sample.world) _)).
    left. reflexivity.
  - refine (proj2 (proj2 (createUser_validation Sample.libs
                            (mkUserInput "cy@example.com" "Cy" "lupin-99")
                            Sample.anonymous Sample.world) eq_refl _)).
    simpl. lia.
Defined.

(** X21. [updatePost] validates inside its [try] block: when the owner
    sends a title or content that is empty or shorter than 5 characters,
    the "Invalid input." error with code 422 is printed, the caller gets
    [undefined] rather than a rejection, and the post is left as it
    was. *)
Theorem updatePost_owner_invalid_input
        (L : Libs) (id : string) (postInput : PostInputData) (req : Request)
        (w : World) (before : PostDoc) (owner : UserDoc) :
  isAuth req = true ->
  Post.lookup id (db_posts w) = Some before ->
  User.lookup (toString (p_creator before)) (db_users w) = Some owner ->
  toString (p_creator before) = userId req ->
  String.length (pi_title postInput) < 5
  \/ String.length (pi_content postInput) < 5 ->
  exists w',
    resolvers.updatePost L id postInput req w = (Ok None, w')
    /\ console w'
       = console w
         ++ [invalid_input (resolvers.post_input_errors postInput)]
    /\ resolvers.post_input_errors postInput <> []
    /\ db_posts w' = db_posts w
    /\ db_users w' = db_users w.
Proof.
  intros Hflag Hpost Howner Hmine Hbad.
  pose proof (user_lookup_id _ _ _ Howner) as Hid.
  assert (Hne : resolvers.post_input_errors postInput <> []).
  { intros Hnil. apply post_input_errors_nil in Hnil. lia. }
  unfold resolvers.updatePost, resolvers.updatePost_try, try_log, bind,
    Post.findById, Post.populate, Post.save, ret, throw.
  rewrite Hflag. simpl. rewrite Hpost. simpl. rewrite Howner.
  assert (Heq : String.eqb (toString (u_id owner)) (userId req) = true)
    by (apply String.eqb_eq; congruence).
  rewrite Heq, (nonempty_length _ Hne). simpl.
  eexists. split; [reflexivity|]. simpl.
  split; [reflexivity|]. split; [exact Hne|]. split; reflexivity.
Qed.

Lemma updatePost_owner_invalid_input_witness :
  exists w',
    resolvers.updatePost Sample.libs "p1"
      (mkPostInput "Hi" "Hello World" "images/n.png") Sample.as_ann
      Sample.world = (Ok None, w')
    /\ console w' = [invalid_input [mkFieldError "Title is invalid."]]
    /\ db_posts w' = db_posts Sample.world.
Proof.
  destruct (updatePost_owner_invalid_input Sample.libs "p1"
              (mkPostInput "Hi" "Hello World" "images/n.png") Sample.as_ann
              Sample.world Sample.p1 Sample.ann eq_refl eq_refl eq_refl
              eq_refl)
    as (w' & Hrun & Hlog & _ & Hposts & _).
  - left. simpl. lia.
  - exists w'. split; [exact Hrun|]. split; [exact Hlog | exact Hposts].
Defined.
